(** * Signed operations: EIP-712 digests, signatures and cancellation

    A shallow embedding of [src/modules/SignedOperations.ts].  Digests,
    addresses and byte strings are hexadecimal strings, as in the TypeScript
    code; the Keccak-256 function, the typed-signature recovery and the
    contract-call dispatcher are external collaborators and are taken as
    section variables. *)

From Stdlib Require Import ZArith String Ascii List Lia DecimalString DecimalZ.
From Stdlib Require Import Permutation.
From Stdlib.Strings Require Import Byte.
From stdpp Require Import gmap strings list.

Set Warnings "-register-all".
Open Scope Z_scope.

(** ** Thrown errors and null

    [EncodingError] stands for every error thrown inside [soliditySha3]
    while it packs its arguments: a value that does not fit its type, or a
    null where a value is needed. *)

Inductive Error : Type :=
  | EncodingError
  | InvalidSignature
  | UnsupportedSignatureType
  | SignerRejected (message : string).

(** The outcome of a call: a value, a thrown error, or [null] where the
    TypeScript type promises a value (web3-utils' [soliditySha3] returns
    null when there are no bytes to hash). *)
Inductive result (A : Type) : Type :=
  | Ok (a : A)
  | Throw (e : Error)
  | Null.

Arguments Ok {A} a.
Arguments Throw {A} e.
Arguments Null {A}.

#[global] Instance result_ret : MRet result := fun _ a => Ok a.

(** Where the module goes on with the outcome of a call, the next use of
    the value is as the value of an argument of [soliditySha3] (line 299),
    which throws on null. *)
#[global] Instance result_bind : MBind result := fun _ _ f m =>
  match m with
  | Ok a => f a
  | Throw e => Throw e
  | Null => Throw EncodingError
  end.

Definition of_option {A : Type} (e : Error) (o : option A) : result A :=
  match o with
  | Some a => Ok a
  | None => Throw e
  end.

(** ** Bytes and hexadecimal strings *)

Definition byte_of_Z (z : Z) : byte :=
  match Byte.of_N (Z.to_N (z mod 256)) with
  | Some b => b
  | None => x00
  end.

Definition Z_of_byte (b : byte) : Z := Z.of_N (Byte.to_N b).

Definition hexDigitValue (c : ascii) : option Z :=
  let n := Z.of_N (N_of_ascii c) in
  if (48 <=? n) && (n <=? 57) then Some (n - 48)
  else if (97 <=? n) && (n <=? 102) then Some (n - 87)
  else if (65 <=? n) && (n <=? 70) then Some (n - 55)
  else None.

Definition hexChar (n : Z) : ascii :=
  if n <? 10 then ascii_of_N (Z.to_N (48 + n)) else ascii_of_N (Z.to_N (87 + n)).

Fixpoint hexToBytes (s : string) : option (list byte) :=
  match s with
  | EmptyString => Some []
  | String _ EmptyString => None
  | String h (String l rest) =>
      match hexDigitValue h, hexDigitValue l, hexToBytes rest with
      | Some a, Some b, Some bs => Some (byte_of_Z (16 * a + b) :: bs)
      | _, _, _ => None
      end
  end.

Definition byteToHex (b : byte) : string :=
  String (hexChar (Z_of_byte b / 16)) (String (hexChar (Z_of_byte b mod 16)) EmptyString).

Fixpoint bytesToHex (bs : list byte) : string :=
  match bs with
  | [] => EmptyString
  | b :: bs' => byteToHex b +:+ bytesToHex bs'
  end.

(** Big-endian rendering of [z] on [n] bytes. *)
Fixpoint be_bytes (n : nat) (z : Z) : list byte :=
  match n with
  | O => []
  | S n' => be_bytes n' (z / 256) ++ [byte_of_Z z]
  end.

Definition utf8 (s : string) : list byte := list_byte_of_string s.

Definition zeros (n : nat) : list byte := replicate n x00.

(** ** Helpers of the repository that sit next to the module *)

(** Modelled from the spec: [BytesHelper.stripHexPrefix] is not among the
    sources; the digest and signature wire formats of section 6 are hex
    strings with the fixed prefix [0x], which this removes when present. *)
Definition stripHexPrefix (input : string) : string :=
  match input with
  | String "0" (String "x" rest) => rest
  | _ => input
  end.

(** Modelled from the spec: [Helpers.toString] is not among the sources; it
    coerces an integer to its canonical base-10 string (section 6, iii). *)
Definition toString (input : Z) : string := NilZero.string_of_int (Z.to_int input).

(** Modelled from the spec: [BytesHelper.addressToBytes32] is not among the
    sources; section 4.1 has addresses left-padded to 32 bytes, that is
    twelve zero bytes ahead of the twenty address bytes. *)
Definition addressToBytes32 (input : string) : string :=
  "0x000000000000000000000000" +:+ stripHexPrefix input.

(** ** The packed-encode-then-hash primitive *)

Inductive SolValue : Type :=
  | v_str (s : string)
  | v_num (n : Z).

Record SolArg : Type := { t : string; v : SolValue }.

(** A JavaScript number is accepted below [2 ^ 53] in absolute value only;
    a string is read as a decimal numeral. *)
Definition parseNumber (value : SolValue) : option Z :=
  match value with
  | v_num n => if Z.abs n <? 2 ^ 53 then Some n else None
  | v_str s => Z.of_int <$> NilZero.int_of_string s
  end.

(** Modelled from the spec: the packing of web3-utils is an external
    capability (section 1, a); section 4.1 gives its convention: integers as
    fixed 32-byte big-endian words, 32-byte values as they are, byte strings
    and text raw.  A value that does not fit its type has no encoding. *)
Definition solidityPack (arg : SolArg) : result (list byte) :=
  if String.eqb (t arg) "uint256" then
    z ← of_option EncodingError (parseNumber (v arg));
    if (z <? 0) || (2 ^ 256 <=? z) then Throw EncodingError
    else Ok (be_bytes 32 z)
  else if String.eqb (t arg) "bytes32" then
    match v arg with
    | v_str s =>
        bs ← of_option EncodingError (hexToBytes (stripHexPrefix s));
        if (32 <? length bs)%nat then Throw EncodingError
        else Ok (bs ++ zeros (32 - length bs))
    | v_num _ => Throw EncodingError
    end
  else if String.eqb (t arg) "bytes" then
    match v arg with
    | v_str s => of_option EncodingError (hexToBytes (stripHexPrefix s))
    | v_num _ => Throw EncodingError
    end
  else if String.eqb (t arg) "string" then
    match v arg with
    | v_str s => Ok (utf8 s)
    | v_num _ => Throw EncodingError
    end
  else Throw EncodingError.

Definition digestHex (bs : list byte) : string := "0x" +:+ bytesToHex bs.

(** ** Well-formed values *)

Definition isUint256 (z : Z) : bool := (0 <=? z) && (z <? 2 ^ 256).

(** The bytes a hex string stands for, with or without the prefix. *)
Definition hexBytes (s : string) : option (list byte) := hexToBytes (stripHexPrefix s).

Definition isHexOfLength (n : nat) (s : string) : bool :=
  match hexBytes s with
  | Some bs => (length bs =? n)%nat
  | None => false
  end.

Definition isAddress (s : string) : bool := isHexOfLength 20 s.

Definition isDigest (s : string) : bool := isHexOfLength 32 s.

Definition hasHexPrefix (s : string) : bool :=
  match s with
  | String "0" (String "x" _) => true
  | _ => false
  end.

(** The wire format of section 6: the fixed prefix, 65 signature bytes and
    one tag byte. *)
Definition isTypedSignature (s : string) : bool :=
  hasHexPrefix s && isHexOfLength 66 s.

(** A JavaScript number that [soliditySha3] accepts as a [uint256]. *)
Definition isSafeNumber (n : Z) : bool := (0 <=? n) && (n <? 2 ^ 53).

Definition isHexData (s : string) : bool :=
  match hexBytes s with
  | Some _ => true
  | None => false
  end.

Definition bytesOf (s : string) : list byte := default [] (hexBytes s).

Definition signatureTag (typedSignature : string) : byte :=
  List.last (bytesOf typedSignature) x00.

Definition rawSignature (typedSignature : string) : list byte :=
  take 65 (bytesOf typedSignature).

(** ** Data model ([src/types]) *)

Record AssetAmount : Type :=
  { sign : bool; denomination : Z; ref : Z; value : Z }.

Record Action : Type :=
  { actionType : Z;
    primaryAccountOwner : string;
    primaryAccountNumber : Z;
    amount : AssetAmount;
    primaryMarketId : Z;
    secondaryMarketId : Z;
    otherAddress : string;
    secondaryAccountOwner : string;
    secondaryAccountNumber : Z;
    data : string }.

Record Operation : Type :=
  { actions : list Action;
    expiration : Z;
    salt : Z;
    sender : string;
    signer : string }.

Record SignedOperation : Type :=
  { operation : Operation; typedSignature : string }.

(** The instance: [this.contracts.signedOperationProxy.options.address] and
    [this.networkId]. *)
Record Contract : Type := { options_address : string }.
Record Contracts : Type := { signedOperationProxy : Contract }.
Record SignedOperations : Type := { contracts : Contracts; networkId : Z }.

(** ** Type descriptors *)

Record Field : Type := { type : string; name : string }.

Definition EIP712_OPERATION_STRUCT : list Field :=
  [ {| type := "Action[]"; name := "actions" |};
    {| type := "uint256"; name := "expiration" |};
    {| type := "uint256"; name := "salt" |};
    {| type := "address"; name := "sender" |} ].

Definition EIP712_ACTION_STRUCT : list Field :=
  [ {| type := "uint8"; name := "actionType" |};
    {| type := "address"; name := "accountOwner" |};
    {| type := "uint256"; name := "accountNumber" |};
    {| type := "AssetAmount"; name := "assetAmount" |};
    {| type := "uint256"; name := "primaryMarketId" |};
    {| type := "uint256"; name := "secondaryMarketId" |};
    {| type := "address"; name := "otherAddress" |};
    {| type := "address"; name := "otherAccountOwner" |};
    {| type := "uint256"; name := "otherAccountNumber" |};
    {| type := "bytes"; name := "data" |} ].

Definition EIP712_ASSET_AMOUNT_STRUCT : list Field :=
  [ {| type := "bool"; name := "sign" |};
    {| type := "uint8"; name := "denomination" |};
    {| type := "uint8"; name := "ref" |};
    {| type := "uint256"; name := "value" |} ].

Definition EIP712_ASSET_AMOUNT_STRING : string :=
  "AssetAmount(" +:+
  "bool sign," +:+
  "uint8 denomination," +:+
  "uint8 ref," +:+
  "uint256 value" +:+
  ")".

Definition EIP712_ACTION_STRING : string :=
  "Action(" +:+
  "uint8 actionType," +:+
  "address accountOwner," +:+
  "uint256 accountNumber," +:+
  "AssetAmount assetAmount," +:+
  "uint256 primaryMarketId," +:+
  "uint256 secondaryMarketId," +:+
  "address otherAddress," +:+
  "address otherAccountOwner," +:+
  "uint256 otherAccountNumber," +:+
  "bytes data" +:+
  ")" +:+
  EIP712_ASSET_AMOUNT_STRING.

Definition EIP712_OPERATION_STRING : string :=
  "Operation(" +:+
  "Action[] actions," +:+
  "uint256 expiration," +:+
  "uint256 salt," +:+
  "address sender" +:+
  ")" +:+
  EIP712_ACTION_STRING.

(** The field list of a struct in the form [TypeName(type1 name1,type2 name2,...)],
    as section 4.2 of the specification words it; the module's strings are
    compared with it. *)
Fixpoint spec_members (fields : list Field) : string :=
  match fields with
  | [] => ""
  | [f] => type f +:+ " " +:+ name f
  | f :: rest => type f +:+ " " +:+ name f +:+ "," +:+ spec_members rest
  end.

Definition spec_signature (typeName : string) (fields : list Field) : string :=
  typeName +:+ "(" +:+ spec_members fields +:+ ")".

(** ** JavaScript values *)

Inductive Json : Type :=
  | JString (s : string)
  | JNumber (n : Z)
  | JBool (b : bool)
  | JArray (items : list Json)
  | JObject (members : list (string * Json)).

(** Property access on an object literal. *)
Fixpoint assoc (key : string) (members : list (string * Json)) : option Json :=
  match members with
  | [] => None
  | (k, x) :: rest => if String.eqb k key then Some x else assoc key rest
  end.

Definition get (key : string) (j : Json) : option Json :=
  match j with
  | JObject members => assoc key members
  | _ => None
  end.

Definition fieldsJson (fields : list Field) : Json :=
  JArray (map (fun f => JObject [("type", JString (type f)); ("name", JString (name f))]%string) fields).

Definition lowerChar (c : ascii) : ascii :=
  let n := N_of_ascii c in
  if ((65 <=? n) && (n <=? 90))%N then ascii_of_N (n + 32) else c.

Fixpoint toLowerCase (s : string) : string :=
  match s with
  | EmptyString => EmptyString
  | String c rest => String (lowerChar c) (toLowerCase rest)
  end.

(** [BigNumber.toFixed(0)] on an integer: its base-10 digits. *)
Definition toFixed0 (n : Z) : string := NilZero.string_of_int (Z.to_int n).

(** Modelled from the spec: [BytesHelper.addressesAreEqual] is not among the
    sources; section 4.5 has the recovered and the claimed address compared
    case-insensitively, normalised (here: without the hex prefix). *)
Definition addressesAreEqual (addressOne addressTwo : string) : bool :=
  String.eqb (toLowerCase (stripHexPrefix addressOne))
             (toLowerCase (stripHexPrefix addressTwo)).

(** ** The store of option objects

    [ContractCallOptions] values are JavaScript objects passed by reference:
    a location in a store of property maps. *)

Definition loc : Type := positive.

Definition object : Type := gmap string Json.

Definition store : Type := gmap loc object.

(** The contract method handed to the dispatcher. *)
Inductive ContractMethod : Type :=
  | cancel (operationHash : string).

(** The response of the provider to a signing request. *)
Record Response : Type := { error : option string; response_result : string }.

(** [Object.keys]: the property names of an object literal, in order. *)
Definition keys (j : Json) : list string :=
  match j with
  | JObject members => map fst members
  | _ => []
  end.

(** An entry of the query of [getOperationsAreInvalid]. *)
Record OperationQuery : Type :=
  { operationHash : string; operationSigner : string }.

(** The contract method handed to the dispatcher of constant calls. *)
Inductive ConstantMethod : Type :=
  | g_isOperational
  | getOperationsAreInvalidQuery (inputQuery : list OperationQuery).

(** What happens to an instance in the course of time: its configuration
    is replaced, or the digest of the domain is asked for. *)
Inductive Step : Type :=
  | Configure (this' : SignedOperations)
  | AskDomainHash.

(** A request to [web3.eth.sign]: the data to sign and the account. *)
Inductive SignRequest : Type :=
  | EthSign (dataToSign account : string).

(** ** A computable stand-in for the hash, and sample values

    The theorems below hold for every hash function with 32-byte digests;
    this one is used to run the definitions on concrete inputs. *)

Definition toy_keccak (bs : list byte) : list byte :=
  be_bytes 32 (fold_left (fun acc b => (acc * 257 + Z_of_byte b + 1) mod 4294967291) bs 7).

Definition toy_DOMAIN_STRING : string :=
  "EIP712Domain(string name,string version,uint256 chainId,address verifyingContract)".

Definition zeroAddress : string := "0x0000000000000000000000000000000000000000".

Definition sampleAddress : string := "0x52bc44d5378309ee2abf1539bf71de1b7d7be3b5".

(** The same twenty bytes as [sampleAddress], in mixed-case (checksummed) form. *)
Definition sampleAddressMixed : string := "0x52bc44d5378309EE2abF1539BF71dE1b7d7bE3b5".

Definition sampleAmount : AssetAmount :=
  {| sign := true; denomination := 0; ref := 1; value := 1000 |}.

Definition sampleAction : Action :=
  {| actionType := 1;
     primaryAccountOwner := sampleAddress;
     primaryAccountNumber := 5;
     amount := sampleAmount;
     primaryMarketId := 0;
     secondaryMarketId := 1;
     otherAddress := zeroAddress;
     secondaryAccountOwner := zeroAddress;
     secondaryAccountNumber := 0;
     data := "0x" |}.

(** [sampleAction] with the owner written in mixed case. *)
Definition sampleActionMixed : Action :=
  {| actionType := 1;
     primaryAccountOwner := sampleAddressMixed;
     primaryAccountNumber := 5;
     amount := sampleAmount;
     primaryMarketId := 0;
     secondaryMarketId := 1;
     otherAddress := zeroAddress;
     secondaryAccountOwner := zeroAddress;
     secondaryAccountNumber := 0;
     data := "0x" |}.

Definition sampleInstance : SignedOperations :=
  {| contracts := {| signedOperationProxy := {| options_address := sampleAddress |} |};
     networkId := 1 |}.

Definition emptyOperation : Operation :=
  {| actions := []; expiration := 0; salt := 0; sender := zeroAddress; signer := zeroAddress |}.

Definition sampleOperation : Operation :=
  {| actions := [sampleAction; sampleActionMixed];
     expiration := 1700000000;
     salt := 42;
     sender := zeroAddress;
     signer := sampleAddressMixed |}.

(** [sampleOperation] with another signer. *)
Definition sampleOperationOtherSigner : Operation :=
  {| actions := actions sampleOperation;
     expiration := expiration sampleOperation;
     salt := salt sampleOperation;
     sender := sender sampleOperation;
     signer := zeroAddress |}.

(** [sampleAction] with another action type. *)
Definition sampleActionTwo : Action :=
  {| actionType := 2;
     primaryAccountOwner := sampleAddress;
     primaryAccountNumber := 5;
     amount := sampleAmount;
     primaryMarketId := 0;
     secondaryMarketId := 1;
     otherAddress := zeroAddress;
     secondaryAccountOwner := zeroAddress;
     secondaryAccountNumber := 0;
     data := "0x" |}.

Definition sampleDigest : string :=
  "0x000000000000000000000000000000000000000000000000000000003f9b3921".

(** The digest of [sampleOperation] on [sampleInstance] under [toy_keccak],
    and its cancel digest. *)
Definition sampleOperationDigest : string :=
  "0x000000000000000000000000000000000000000000000000000000006c3d411b".

Definition sampleCancelDigest : string :=
  "0x0000000000000000000000000000000000000000000000000000000058324700".

(** A stand-in for the recovery: a signature is made of the 32 bytes of the
    digest it was made for, 12 zero bytes, the 20 bytes of the address of
    its signer and one more byte; the signer is recovered from a signature
    made for the digest at hand, and from no other. *)
Definition toy_recover (digest raw : list byte) : option string :=
  if String.eqb (bytesToHex (take 32 raw)) (bytesToHex digest)
  then Some ("0x" +:+ bytesToHex (take 20 (drop 44 raw)))
  else None.

(** The tags 0 and 1 are known. *)
Definition toy_recoveryFor (tag : byte)
  : option (list byte -> list byte -> option string) :=
  match tag with
  | x00 | x01 => Some toy_recover
  | _ => None
  end.

(** The signature of [sampleAddress] for [sampleOperationDigest], as a
    signer returns it. *)
Definition sampleRawSignature : string :=
  "0x000000000000000000000000000000000000000000000000000000006c3d411b00000000000000000000000052bc44d5378309ee2abf1539bf71de1b7d7be3b51b".

(** The same 65 bytes and the tag 0. *)
Definition sampleTypedSignature : string :=
  "0x000000000000000000000000000000000000000000000000000000006c3d411b00000000000000000000000052bc44d5378309ee2abf1539bf71de1b7d7be3b51b00".

(** The same signature bytes under a tag that is not in use. *)
Definition unknownTagSignature : string :=
  "0x000000000000000000000000000000000000000000000000000000006c3d411b00000000000000000000000052bc44d5378309ee2abf1539bf71de1b7d7be3b51b09".

(** The signature of [sampleAddress] for [sampleCancelDigest], with the
    tag 0. *)
Definition sampleCancelTypedSignature : string :=
  "0x000000000000000000000000000000000000000000000000000000005832470000000000000000000000000052bc44d5378309ee2abf1539bf71de1b7d7be3b51b00".

(** [sampleTypedSignature] without the prefix. *)
Definition unprefixedSignature : string :=
  "000000000000000000000000000000000000000000000000000000006c3d411b00000000000000000000000052bc44d5378309ee2abf1539bf71de1b7d7be3b51b00".

(** Too short to be a typed signature. *)
Definition malformedSignature : string := "0x1b01".

(** A dispatcher that answers without touching the store. *)
Definition toy_dispatch (method : ContractMethod) (options : option loc)
    (σ : store) : result Json * store :=
  (Ok (JString "sent"), σ).

(** The options object of a caller who set [from] and [gas]. *)
Definition sampleOptions : object :=
  <["from" := JString sampleAddress]> (<["gas" := JNumber 4000000]> ∅).

Definition sampleStore : store := <[1%positive := sampleOptions]> ∅.

(** [sampleAmount] with the other sign. *)
Definition sampleAmountNegative : AssetAmount :=
  {| sign := false; denomination := 0; ref := 1; value := 1000 |}.

(** [sampleOperation] with the signer written in lower case. *)
Definition sampleOperationLowerSigner : Operation :=
  {| actions := actions sampleOperation;
     expiration := expiration sampleOperation;
     salt := salt sampleOperation;
     sender := sender sampleOperation;
     signer := sampleAddress |}.

(** [sampleOperation] with another salt. *)
Definition sampleOperationOtherSalt : Operation :=
  {| actions := actions sampleOperation;
     expiration := expiration sampleOperation;
     salt := 43;
     sender := sender sampleOperation;
     signer := signer sampleOperation |}.

(** [sampleInstance] on another network. *)
Definition sampleInstanceOtherNetwork : SignedOperations :=
  {| contracts := contracts sampleInstance; networkId := 42 |}.

(** A provider that signs every request with [sampleRawSignature]. *)
Definition toy_sendAsync (request : Json) : Response :=
  {| error := None; response_result := sampleRawSignature |}.

(** A provider whose user declines. *)
Definition toy_rejectingProvider (request : Json) : Response :=
  {| error := Some "User denied message signature."; response_result := "" |}.

Definition toy_eth_sign (dataToSign account : string) : result string :=
  Ok sampleRawSignature.

Definition toy_createTypedSignature (signature : string) (sigType : Z) : result string :=
  Ok (signature +:+ "0" +:+ toString sigType).

(** A dispatcher of constant calls that answers without touching the store. *)
Definition toy_constantDispatch (method : ConstantMethod) (options : option loc)
    (σ : store) : result Json * store :=
  match method with
  | g_isOperational => (Ok (JBool true), σ)
  | getOperationsAreInvalidQuery inputQuery =>
      (Ok (JArray (map (fun _ => JBool false) inputQuery)), σ)
  end.

(** An operation that does not fit its type: the expiration is negative. *)
Definition illTypedOperation : Operation :=
  {| actions := [sampleAction];
     expiration := -1;
     salt := 42;
     sender := zeroAddress;
     signer := sampleAddress |}.

Definition illTypedAmount : AssetAmount :=
  {| sign := false; denomination := 0; ref := 2 ^ 256; value := 1 |}.

(** ** The hashing functions *)

Section SignedOperations.

Variable keccak256 : list byte -> list byte.

(** Digests are 32 bytes wide (section 3 of the specification). *)
Hypothesis keccak256_length : forall bs, length (keccak256 bs) = 32%nat.

(** The constant [EIP712_DOMAIN_STRING] of [lib/SignatureHelper]. *)
Variable EIP712_DOMAIN_STRING : string.

(** web3-utils' [soliditySha3]: the hash of the packed arguments, and null
    when there is no byte to hash. *)
Definition soliditySha3 (args : list SolArg) : result string :=
  packed ← mapM solidityPack args;
  match concat packed with
  | [] => Null
  | _ :: _ => Ok (digestHex (keccak256 (concat packed)))
  end.

(** Modelled from the spec: [BytesHelper.hashString] is not among the
    sources; section 4.1 names it [hashUtf8(str) -> Digest]. *)
Definition hashString (input : string) : string :=
  digestHex (keccak256 (utf8 input)).

(** Modelled from the spec: [BytesHelper.hashBytes] is not among the
    sources; section 4.1 names it [hashBytes(bytes) -> Digest], the hash of
    the raw bytes, also when there are none. *)
Definition hashBytes (input : string) : result string :=
  match stripHexPrefix input with
  | EmptyString => Ok (digestHex (keccak256 []))
  | _ =>
      soliditySha3 [ {| t := "bytes"; v := v_str ("0x" +:+ stripHexPrefix input) |} ]
  end.

Definition getAssetAmountHash (this : SignedOperations) (amount : AssetAmount)
  : result string :=
  soliditySha3
    [ {| t := "bytes32"; v := v_str (hashString EIP712_ASSET_AMOUNT_STRING) |};
      {| t := "uint256"; v := v_str (toString (if sign amount then 1 else 0)) |};
      {| t := "uint256"; v := v_str (toString (denomination amount)) |};
      {| t := "uint256"; v := v_str (toString (ref amount)) |};
      {| t := "uint256"; v := v_str (toString (value amount)) |} ].

Definition getActionHash (this : SignedOperations) (action : Action)
  : result string :=
  amountHash ← getAssetAmountHash this (amount action);
  dataHash ← hashBytes (data action);
  soliditySha3
    [ {| t := "bytes32"; v := v_str (hashString EIP712_ACTION_STRING) |};
      {| t := "uint256"; v := v_str (toString (actionType action)) |};
      {| t := "bytes32"; v := v_str (addressToBytes32 (primaryAccountOwner action)) |};
      {| t := "uint256"; v := v_str (toString (primaryAccountNumber action)) |};
      {| t := "bytes32"; v := v_str amountHash |};
      {| t := "uint256"; v := v_str (toString (primaryMarketId action)) |};
      {| t := "uint256"; v := v_str (toString (secondaryMarketId action)) |};
      {| t := "bytes32"; v := v_str (addressToBytes32 (otherAddress action)) |};
      {| t := "bytes32"; v := v_str (addressToBytes32 (secondaryAccountOwner action)) |};
      {| t := "uint256"; v := v_str (toString (secondaryAccountNumber action)) |};
      {| t := "bytes32"; v := v_str dataHash |} ].

Definition getActionsHash (this : SignedOperations) (actions : list Action)
  : result string :=
  actionsAsHashes ←
    mapM (fun action =>
            h ← getActionHash this action;
            mret {| t := "bytes32"; v := v_str h |}) actions;
  soliditySha3 actionsAsHashes.

Definition getDomainHash (this : SignedOperations) : result string :=
  soliditySha3
    [ {| t := "bytes32"; v := v_str (hashString EIP712_DOMAIN_STRING) |};
      {| t := "bytes32"; v := v_str (hashString "SignedOperationProxy") |};
      {| t := "bytes32"; v := v_str (hashString "1.0") |};
      {| t := "uint256"; v := v_num (networkId this) |};
      {| t := "bytes32";
         v := v_str (addressToBytes32
                       (options_address (signedOperationProxy (contracts this)))) |} ].

Definition getOperationHash (this : SignedOperations) (operation : Operation)
  : result string :=
  actionsHash ← getActionsHash this (actions operation);
  basicHash ←
    soliditySha3
      [ {| t := "bytes32"; v := v_str (hashString EIP712_OPERATION_STRING) |};
        {| t := "bytes32"; v := v_str actionsHash |};
        {| t := "uint256"; v := v_str (toString (expiration operation)) |};
        {| t := "uint256"; v := v_str (toString (salt operation)) |};
        {| t := "bytes32"; v := v_str (addressToBytes32 (sender operation)) |} ];
  domainHash ← getDomainHash this;
  soliditySha3
    [ {| t := "bytes"; v := v_str "0x1901" |};
      {| t := "bytes32"; v := v_str domainHash |};
      {| t := "bytes32"; v := v_str basicHash |} ].

Definition operationHashToCancelOperationHash (this : SignedOperations)
    (operationHash : string) : result string :=
  soliditySha3
    [ {| t := "string"; v := v_str "cancel" |};
      {| t := "bytes32"; v := v_str operationHash |} ].


(** *** Signature verification *)

(** The recovery procedure of a tag, if the tag is a recognised one: from
    the 32 digest bytes and the 65 signature bytes to the address of the
    signer, if the signature is a valid one (section 4.1, b). *)
Variable recoveryFor : byte -> option (list byte -> list byte -> option string).

(** Modelled from the spec: [SignatureHelper.ecRecoverTypedSignature] is not
    among the sources; section 4.4 has it strip the tag, dispatch to the
    recovery procedure of that tag and return the recovered address, and
    fail with [UnsupportedSignatureType] for an unrecognised tag and with
    [InvalidSignature] for a malformed signature. *)
Definition ecRecoverTypedSignature (hash typedSignature : string) : result string :=
  if isTypedSignature typedSignature then
    match recoveryFor (signatureTag typedSignature) with
    | Some recover =>
        of_option InvalidSignature
          (recover (bytesOf hash) (rawSignature typedSignature))
    | None => Throw UnsupportedSignatureType
    end
  else Throw InvalidSignature.

Definition operationByHashHasValidSignature (this : SignedOperations)
    (operationHash typedSignature expectedSigner : string) : result bool :=
  signer ← ecRecoverTypedSignature operationHash typedSignature;
  mret (addressesAreEqual signer expectedSigner).

Definition operationHasValidSignature (this : SignedOperations)
    (signedOperation : SignedOperation) : result bool :=
  operationHash ← getOperationHash this (operation signedOperation);
  operationByHashHasValidSignature this operationHash
    (typedSignature signedOperation) (signer (operation signedOperation)).

Definition cancelOperationByHashHasValidSignature (this : SignedOperations)
    (operationHash typedSignature expectedSigner : string) : result bool :=
  cancelHash ← operationHashToCancelOperationHash this operationHash;
  signer ← ecRecoverTypedSignature cancelHash typedSignature;
  mret (addressesAreEqual signer expectedSigner).

Definition cancelOperationHasValidSignature (this : SignedOperations)
    (operation : Operation) (typedSignature : string) : result bool :=
  operationHash ← getOperationHash this operation;
  cancelOperationByHashHasValidSignature this operationHash typedSignature
    (signer operation).

(** *** Typed-data signing *)

(** The constant [EIP712_DOMAIN_STRUCT] of [lib/SignatureHelper]. *)
Variable EIP712_DOMAIN_STRUCT : list Field.

(** The constant [SIGNATURE_TYPES.NO_PREPEND] of [lib/SignatureHelper], as
    the template string renders it. *)
Variable SIGNATURE_TYPES_NO_PREPEND : string.

(** [Helpers.toString] applied to a string; the sources do not contain it
    and the specification describes it for integers only. *)
Variable toStringOfString : string -> string.

(** [this.web3.currentProvider.send], promisified. *)
Variable sendAsync : Json -> Response.

Definition domainData (this : SignedOperations) : Json :=
  JObject
    [ ("name", JString "SignedOperationProxy");
      ("version", JString "1.0");
      ("chainId", JNumber (networkId this));
      ("verifyingContract",
       JString (options_address (signedOperationProxy (contracts this)))) ]%string.

Definition actionData (action : Action) : Json :=
  JObject
    [ ("actionType", JString (toString (actionType action)));
      ("accountOwner", JString (primaryAccountOwner action));
      ("accountNumber", JString (toString (primaryAccountNumber action)));
      ("assetAmount",
       JObject
         [ ("sign", JBool (sign (amount action)));
           ("denomination", JString (toString (denomination (amount action))));
           ("ref", JString (toString (ref (amount action))));
           ("value", JString (toString (value (amount action)))) ]);
      ("primaryMarketId", JString (toString (primaryMarketId action)));
      ("secondaryMarketId", JString (toString (secondaryMarketId action)));
      ("otherAddress", JString (toStringOfString (otherAddress action)));
      ("otherAccountOwner", JString (secondaryAccountOwner action));
      ("otherAccountNumber", JString (toString (secondaryAccountNumber action)));
      ("data", JString (data action)) ]%string.

Definition operationData (operation : Operation) : Json :=
  JObject
    [ ("actions", JArray (map actionData (actions operation)));
      ("expiration", JString (toFixed0 (expiration operation)));
      ("salt", JString (toFixed0 (salt operation)));
      ("sender", JString (sender operation)) ]%string.

(** The [data] object of [ethSignTypedOperationInternal]. *)
Definition typedData (this : SignedOperations) (operation : Operation) : Json :=
  JObject
    [ ("types",
       JObject
         [ ("EIP712Domain", fieldsJson EIP712_DOMAIN_STRUCT);
           ("Operation", fieldsJson EIP712_OPERATION_STRUCT);
           ("Action", fieldsJson EIP712_ACTION_STRUCT);
           ("AssetAmount", fieldsJson EIP712_ASSET_AMOUNT_STRUCT) ]);
      ("domain", domainData this);
      ("primaryType", JString "Operation");
      ("message", operationData operation) ]%string.

(** The request handed to the provider; [now] is [new Date().getTime()]. *)
Definition typedDataRequest (this : SignedOperations) (operation : Operation)
    (rpcMethod : string) (now : Z) : Json :=
  JObject
    [ ("method", JString rpcMethod);
      ("params", JArray [JString (signer operation); typedData this operation]);
      ("jsonrpc", JString "2.0");
      ("id", JNumber now) ]%string.

Definition ethSignTypedOperationInternal (this : SignedOperations)
    (operation : Operation) (rpcMethod : string) (now : Z) : result string :=
  let response := sendAsync (typedDataRequest this operation rpcMethod now) in
  match error response with
  | Some message => Throw (SignerRejected message)
  | None =>
      Ok ("0x" +:+ stripHexPrefix (response_result response) +:+ "0"
          +:+ SIGNATURE_TYPES_NO_PREPEND)
  end.

Definition ethSignTypedOperationWithMetamask (this : SignedOperations)
    (operation : Operation) (now : Z) : result string :=
  ethSignTypedOperationInternal this operation "eth_signTypedData_v3" now.

Definition ethSignTypedOperation (this : SignedOperations)
    (operation : Operation) (now : Z) : result string :=
  ethSignTypedOperationInternal this operation "eth_signTypedData" now.

(** *** On-chain cancel *)

(** [this.contracts.callContractFunction]: the dispatcher receives the
    method and the reference to the options object, and runs on the store. *)
Variable callContractFunction :
  ContractMethod -> option loc -> store -> result Json * store.

Definition cancelOperationByHash (this : SignedOperations)
    (operationHash : string) (options : option loc) (σ : store)
  : result Json * store :=
  callContractFunction (cancel operationHash) options σ.

(** [cco.from = value] on the object that [cco] refers to. *)
Definition setProperty (cco : loc) (key : string) (x : Json) (σ : store) : store :=
  <[cco := <[key := x]> (default ∅ (σ !! cco))]> σ.

Definition cancelOperation (this : SignedOperations) (operation : Operation)
    (options : option loc) (σ : store) : result Json * store :=
  match getOperationHash this operation with
  | Throw e => (Throw e, σ)
  | Null => (Throw EncodingError, σ)
  | Ok operationHash =>
      let '(cco, σ1) :=
        match options with
        | Some l => (l, σ)
        | None => let l := fresh (dom σ) in (l, <[l := ∅]> σ)
        end in
      let σ2 := setProperty cco "from" (JString (signer operation)) σ1 in
      cancelOperationByHash this operationHash (Some cco) σ2
  end.

(** *** Well-typed inputs *)

Definition wf_AssetAmount (a : AssetAmount) : bool :=
  isUint256 (denomination a) && isUint256 (ref a) && isUint256 (value a).

Definition wf_Action (a : Action) : bool :=
  isUint256 (actionType a) && isAddress (primaryAccountOwner a)
  && isUint256 (primaryAccountNumber a) && wf_AssetAmount (amount a)
  && isUint256 (primaryMarketId a) && isUint256 (secondaryMarketId a)
  && isAddress (otherAddress a) && isAddress (secondaryAccountOwner a)
  && isUint256 (secondaryAccountNumber a) && isHexData (data a).

Definition wf_Operation (op : Operation) : bool :=
  forallb wf_Action (actions op) && isUint256 (expiration op)
  && isUint256 (salt op) && isAddress (sender op).

Definition wf_instance (this : SignedOperations) : bool :=
  isSafeNumber (networkId this)
  && isAddress (options_address (signedOperationProxy (contracts this))).

(** Two actions that are the same up to the spelling of their hexadecimal
    strings (letter case, prefix): the same numbers and amount, and the same
    bytes in the addresses and in the data. *)
Definition sameBytes (a b : Action) : Prop :=
  actionType a = actionType b /\
  bytesOf (primaryAccountOwner a) = bytesOf (primaryAccountOwner b) /\
  primaryAccountNumber a = primaryAccountNumber b /\
  amount a = amount b /\
  primaryMarketId a = primaryMarketId b /\
  secondaryMarketId a = secondaryMarketId b /\
  bytesOf (otherAddress a) = bytesOf (otherAddress b) /\
  bytesOf (secondaryAccountOwner a) = bytesOf (secondaryAccountOwner b) /\
  secondaryAccountNumber a = secondaryAccountNumber b /\
  bytesOf (data a) = bytesOf (data b).

(** *** The digests as section 4.3 of the specification words them

    Byte-level counterparts of the functions above, compared with them in
    the theorems. *)

Definition hash (bs : list byte) : list byte := keccak256 bs.

Definition uint256 (z : Z) : list byte := be_bytes 32 z.

Definition padded (address : string) : list byte := zeros 12 ++ bytesOf address.

Definition spec_hashAssetAmount (a : AssetAmount) : list byte :=
  hash (hash (utf8 EIP712_ASSET_AMOUNT_STRING)
        ++ uint256 (if sign a then 1 else 0)
        ++ uint256 (denomination a) ++ uint256 (ref a) ++ uint256 (value a)).

Definition spec_hashAction (act : Action) : list byte :=
  hash (hash (utf8 EIP712_ACTION_STRING)
        ++ uint256 (actionType act)
        ++ padded (primaryAccountOwner act)
        ++ uint256 (primaryAccountNumber act)
        ++ spec_hashAssetAmount (amount act)
        ++ uint256 (primaryMarketId act)
        ++ uint256 (secondaryMarketId act)
        ++ padded (otherAddress act)
        ++ padded (secondaryAccountOwner act)
        ++ uint256 (secondaryAccountNumber act)
        ++ hash (bytesOf (data act))).

Definition spec_hashActions (acts : list Action) : list byte :=
  hash (concat (map spec_hashAction acts)).

Definition spec_basicHash (op : Operation) : list byte :=
  hash (hash (utf8 EIP712_OPERATION_STRING)
        ++ spec_hashActions (actions op)
        ++ uint256 (expiration op) ++ uint256 (salt op)
        ++ padded (sender op)).

Definition spec_domainHash (this : SignedOperations) : list byte :=
  hash (hash (utf8 EIP712_DOMAIN_STRING)
        ++ hash (utf8 "SignedOperationProxy")
        ++ hash (utf8 "1.0")
        ++ uint256 (networkId this)
        ++ padded (options_address (signedOperationProxy (contracts this)))).

Definition spec_hashOperation (this : SignedOperations) (op : Operation) : list byte :=
  hash ([x19; x01] ++ spec_domainHash this ++ spec_basicHash op).

Definition spec_cancelHash (operationDigest : list byte) : list byte :=
  hash (utf8 "cancel" ++ operationDigest).

(** The bytes that [getActionsHash] hands to the hash function. *)
Definition actionsPreimage (this : SignedOperations) (actions : list Action)
  : result (list byte) :=
  actionsAsHashes ←
    mapM (fun action =>
            h ← getActionHash this action;
            mret {| t := "bytes32"; v := v_str h |}) actions;
  packed ← mapM solidityPack actionsAsHashes;
  mret (concat packed).

(** The bytes that [getAssetAmountHash] hands to the hash function. *)
Definition assetAmountPreimage (this : SignedOperations) (amount : AssetAmount)
  : result (list byte) :=
  packed ←
    mapM solidityPack
      [ {| t := "bytes32"; v := v_str (hashString EIP712_ASSET_AMOUNT_STRING) |};
        {| t := "uint256"; v := v_str (toString (if sign amount then 1 else 0)) |};
        {| t := "uint256"; v := v_str (toString (denomination amount)) |};
        {| t := "uint256"; v := v_str (toString (ref amount)) |};
        {| t := "uint256"; v := v_str (toString (value amount)) |} ];
  mret (concat packed).

(** The bytes of the basic hash of [getOperationHash]. *)
Definition basicPreimage (this : SignedOperations) (operation : Operation)
  : result (list byte) :=
  actionsHash ← getActionsHash this (actions operation);
  packed ←
    mapM solidityPack
      [ {| t := "bytes32"; v := v_str (hashString EIP712_OPERATION_STRING) |};
        {| t := "bytes32"; v := v_str actionsHash |};
        {| t := "uint256"; v := v_str (toString (expiration operation)) |};
        {| t := "uint256"; v := v_str (toString (salt operation)) |};
        {| t := "bytes32"; v := v_str (addressToBytes32 (sender operation)) |} ];
  mret (concat packed).

(** The bytes that [getActionHash] hands to the hash function. *)
Definition actionPreimage (this : SignedOperations) (action : Action)
  : result (list byte) :=
  amountHash ← getAssetAmountHash this (amount action);
  dataHash ← hashBytes (data action);
  packed ←
    mapM solidityPack
      [ {| t := "bytes32"; v := v_str (hashString EIP712_ACTION_STRING) |};
        {| t := "uint256"; v := v_str (toString (actionType action)) |};
        {| t := "bytes32"; v := v_str (addressToBytes32 (primaryAccountOwner action)) |};
        {| t := "uint256"; v := v_str (toString (primaryAccountNumber action)) |};
        {| t := "bytes32"; v := v_str amountHash |};
        {| t := "uint256"; v := v_str (toString (primaryMarketId action)) |};
        {| t := "uint256"; v := v_str (toString (secondaryMarketId action)) |};
        {| t := "bytes32"; v := v_str (addressToBytes32 (otherAddress action)) |};
        {| t := "bytes32"; v := v_str (addressToBytes32 (secondaryAccountOwner action)) |};
        {| t := "uint256"; v := v_str (toString (secondaryAccountNumber action)) |};
        {| t := "bytes32"; v := v_str dataHash |} ];
  mret (concat packed).

(** The bytes that [getDomainHash] hands to the hash function. *)
Definition domainPreimage (this : SignedOperations) : result (list byte) :=
  packed ←
    mapM solidityPack
      [ {| t := "bytes32"; v := v_str (hashString EIP712_DOMAIN_STRING) |};
        {| t := "bytes32"; v := v_str (hashString "SignedOperationProxy") |};
        {| t := "bytes32"; v := v_str (hashString "1.0") |};
        {| t := "uint256"; v := v_num (networkId this) |};
        {| t := "bytes32";
           v := v_str (addressToBytes32
                         (options_address (signedOperationProxy (contracts this)))) |} ];
  mret (concat packed).

(** The answers to the requests of a session, in order: [getDomainHash]
    reads [networkId] and the contract address at each call and keeps
    nothing in the instance. *)
Fixpoint session (this : SignedOperations) (steps : list Step)
  : list (result string) :=
  match steps with
  | [] => []
  | Configure this' :: rest => session this' rest
  | AskDomainHash :: rest => getDomainHash this :: session this rest
  end.

(** *** Getter contract methods *)

(** [this.contracts.callConstantContractFunction]. *)
Variable callConstantContractFunction :
  ConstantMethod -> option loc -> store -> result Json * store.

Definition isOperational (this : SignedOperations) (options : option loc)
    (σ : store) : result Json * store :=
  callConstantContractFunction g_isOperational options σ.

Definition getOperationsAreInvalid (this : SignedOperations)
    (operations : list Operation) (options : option loc) (σ : store)
  : result Json * store :=
  match
    mapM (fun operation =>
            h ← getOperationHash this operation;
            mret {| operationHash := h; operationSigner := signer operation |})
         operations
  with
  | Throw e => (Throw e, σ)
  | Null => (Throw EncodingError, σ)
  | Ok inputQuery =>
      callConstantContractFunction (getOperationsAreInvalidQuery inputQuery) options σ
  end.

(** *** Signing a digest *)

(** [this.web3.eth.sign]; a rejected promise is a thrown error. *)
Variable eth_sign : string -> string -> result string.

(** [createTypedSignature] and [SIGNATURE_TYPES.DECIMAL] of
    [lib/SignatureHelper]. *)
Variable createTypedSignature : string -> Z -> result string.
Variable SIGNATURE_TYPES_DECIMAL : Z.

(** Each function returns its result and the signing requests it made. *)
Definition ethSignOperation (this : SignedOperations) (operation : Operation)
  : result string * list SignRequest :=
  match getOperationHash this operation with
  | Throw e => (Throw e, [])
  | Null => (Throw EncodingError, [])
  | Ok hash =>
      (signature ← eth_sign hash (signer operation);
       createTypedSignature signature SIGNATURE_TYPES_DECIMAL,
       [EthSign hash (signer operation)])
  end.

Definition ethSignCancelOperationByHash (this : SignedOperations)
    (operationHash signer : string) : result string * list SignRequest :=
  match operationHashToCancelOperationHash this operationHash with
  | Throw e => (Throw e, [])
  | Null => (Throw EncodingError, [])
  | Ok cancelHash =>
      (signature ← eth_sign cancelHash signer;
       createTypedSignature signature SIGNATURE_TYPES_DECIMAL,
       [EthSign cancelHash signer])
  end.

Definition ethSignCancelOperation (this : SignedOperations) (operation : Operation)
  : result string * list SignRequest :=
  match getOperationHash this operation with
  | Throw e => (Throw e, [])
  | Null => (Throw EncodingError, [])
  | Ok operationHash =>
      ethSignCancelOperationByHash this operationHash (signer operation)
  end.

(** ** Hexadecimal strings and the packing *)

Lemma hexDigitValue_high (b : byte) :
  hexDigitValue (hexChar (Z_of_byte b / 16)) = Some (Z_of_byte b / 16).
Proof. destruct b; vm_compute; reflexivity. Qed.

Lemma hexDigitValue_low (b : byte) :
  hexDigitValue (hexChar (Z_of_byte b mod 16)) = Some (Z_of_byte b mod 16).
Proof. destruct b; vm_compute; reflexivity. Qed.

Lemma byte_of_nibbles (b : byte) :
  byte_of_Z (16 * (Z_of_byte b / 16) + Z_of_byte b mod 16) = b.
Proof. destruct b; vm_compute; reflexivity. Qed.

Lemma hexToBytes_byteToHex (b : byte) (s : string) :
  hexToBytes (byteToHex b +:+ s) = (fun bs => b :: bs) <$> hexToBytes s.
Proof.
  unfold byteToHex.
  change (hexToBytes (String ?h (String ?l "") +:+ s))
    with (match hexDigitValue h, hexDigitValue l, hexToBytes s with
          | Some a, Some c, Some bs => Some (byte_of_Z (16 * a + c) :: bs)
          | _, _, _ => None
          end).
  rewrite hexDigitValue_high, hexDigitValue_low, byte_of_nibbles.
  destruct (hexToBytes s); reflexivity.
Qed.

Lemma hexToBytes_bytesToHex (bs : list byte) :
  hexToBytes (bytesToHex bs) = Some bs.
Proof.
  induction bs as [|b bs IH]; [reflexivity|].
  cbn [bytesToHex]. rewrite hexToBytes_byteToHex, IH. reflexivity.
Qed.

Lemma hexBytes_digestHex (bs : list byte) : hexBytes (digestHex bs) = Some bs.
Proof. apply hexToBytes_bytesToHex. Qed.

Lemma bytesOf_digestHex (bs : list byte) : bytesOf (digestHex bs) = bs.
Proof. unfold bytesOf. rewrite hexBytes_digestHex. reflexivity. Qed.

Lemma isDigest_digestHex (bs : list byte) :
  length bs = 32%nat -> isDigest (digestHex bs) = true.
Proof.
  intros H. unfold isDigest, isHexOfLength. rewrite hexBytes_digestHex, H.
  reflexivity.
Qed.

Lemma isHexOfLength_inv (n : nat) (s : string) :
  isHexOfLength n s = true ->
  hexBytes s = Some (bytesOf s) /\ length (bytesOf s) = n.
Proof.
  unfold isHexOfLength, bytesOf. destruct (hexBytes s) as [bs|]; [|discriminate].
  intros H. apply Nat.eqb_eq in H. auto.
Qed.

Lemma length_be_bytes (n : nat) (z : Z) : length (be_bytes n z) = n.
Proof.
  revert z. induction n as [|n IH]; intros z; [reflexivity|].
  cbn [be_bytes]. rewrite length_app, IH. cbn. lia.
Qed.

Lemma parseNumber_toString (z : Z) : parseNumber (v_str (toString z)) = Some z.
Proof.
  unfold parseNumber, toString. rewrite NilZero.isi.
  - cbn. f_equal. apply DecimalZ.of_to.
  - destruct z; cbn; intros E; inversion E.
    eapply DecimalPos.Unsigned.to_uint_nonnil; eassumption.
  - destruct z; cbn; intros E; inversion E.
    eapply DecimalPos.Unsigned.to_uint_nonnil; eassumption.
Qed.

Lemma isUint256_range (z : Z) : isUint256 z = true -> 0 <= z < 2 ^ 256.
Proof. unfold isUint256. intros H. apply andb_prop in H. lia. Qed.

Lemma solidityPack_uint256 (value : SolValue) (z : Z) :
  parseNumber value = Some z -> isUint256 z = true ->
  solidityPack {| t := "uint256"; v := value |} = Ok (uint256 z).
Proof.
  intros Hp Hz. apply isUint256_range in Hz.
  unfold solidityPack. cbn [t v String.eqb Ascii.eqb Bool.eqb].
  rewrite Hp. cbn [of_option mbind result_bind].
  destruct (z <? 0) eqn:E1; [lia|].
  destruct (2 ^ 256 <=? z) eqn:E2; [lia|]. reflexivity.
Qed.

Lemma solidityPack_bytes32 (s : string) (bs : list byte) :
  hexBytes s = Some bs -> length bs = 32%nat ->
  solidityPack {| t := "bytes32"; v := v_str s |} = Ok bs.
Proof.
  intros Hs Hl. unfold solidityPack, hexBytes in *.
  cbn [t v String.eqb Ascii.eqb Bool.eqb].
  rewrite Hs. cbn [of_option mbind result_bind]. rewrite Hl.
  cbn. rewrite app_nil_r. reflexivity.
Qed.

Lemma solidityPack_digest (bs : list byte) :
  solidityPack {| t := "bytes32"; v := v_str (digestHex (keccak256 bs)) |}
  = Ok (hash bs).
Proof.
  apply solidityPack_bytes32; [apply hexBytes_digestHex | apply keccak256_length].
Qed.

Lemma hexToBytes_prefix (p : list byte) (s : string) :
  hexToBytes (bytesToHex p +:+ s) = (fun bs => p ++ bs) <$> hexToBytes s.
Proof.
  induction p as [|b p IH]; cbn [bytesToHex].
  - change ("" +:+ s) with s. destruct (hexToBytes s); reflexivity.
  - change ((byteToHex b +:+ bytesToHex p) +:+ s)
      with (byteToHex b +:+ (bytesToHex p +:+ s)).
    rewrite hexToBytes_byteToHex, IH. destruct (hexToBytes s); reflexivity.
Qed.

Lemma hexBytes_addressToBytes32 (a : string) (bs : list byte) :
  hexBytes a = Some bs -> hexBytes (addressToBytes32 a) = Some (zeros 12 ++ bs).
Proof.
  unfold hexBytes, addressToBytes32. intros H.
  change (stripHexPrefix ("0x000000000000000000000000" +:+ stripHexPrefix a))
    with (bytesToHex (zeros 12) +:+ stripHexPrefix a).
  rewrite hexToBytes_prefix, H. reflexivity.
Qed.

Lemma solidityPack_address (a : string) :
  isAddress a = true ->
  solidityPack {| t := "bytes32"; v := v_str (addressToBytes32 a) |} = Ok (padded a).
Proof.
  intros H. apply isHexOfLength_inv in H as [Hb Hl]. unfold padded.
  apply solidityPack_bytes32.
  - apply hexBytes_addressToBytes32, Hb.
  - rewrite length_app, Hl. reflexivity.
Qed.

Lemma solidityPack_string (s : string) :
  solidityPack {| t := "string"; v := v_str s |} = Ok (utf8 s).
Proof. reflexivity. Qed.

Lemma solidityPack_bytes (s : string) (bs : list byte) :
  hexBytes s = Some bs -> solidityPack {| t := "bytes"; v := v_str s |} = Ok bs.
Proof.
  intros H. unfold solidityPack, hexBytes in *.
  cbn [t v String.eqb Ascii.eqb Bool.eqb]. rewrite H. reflexivity.
Qed.

Lemma mapM_ok_nil {A B : Type} (f : A -> result B) : mapM f [] = Ok [].
Proof. reflexivity. Qed.

Lemma mapM_ok_cons {A B : Type} (f : A -> result B) x xs y ys :
  f x = Ok y -> mapM f xs = Ok ys -> mapM f (x :: xs) = Ok (y :: ys).
Proof. intros Hx Hxs. cbn [mapM]. rewrite Hx. cbn. change (mapM f xs) with (mapM f xs). rewrite Hxs. reflexivity. Qed.

Lemma soliditySha3_ok (args : list SolArg) (packed : list (list byte)) :
  mapM solidityPack args = Ok packed ->
  (0 < length (concat packed))%nat ->
  soliditySha3 args = Ok (digestHex (hash (concat packed))).
Proof.
  intros H Hl. unfold soliditySha3. rewrite H. cbn [mbind result_bind].
  destruct (concat packed); [cbn in Hl; lia | reflexivity].
Qed.

Lemma soliditySha3_nil : soliditySha3 [] = Null.
Proof. reflexivity. Qed.

Lemma isSafeNumber_range (n : Z) : isSafeNumber n = true -> 0 <= n < 2 ^ 53.
Proof. unfold isSafeNumber. intros H. apply andb_prop in H. lia. Qed.

Lemma isSafeNumber_isUint256 (n : Z) : isSafeNumber n = true -> isUint256 n = true.
Proof.
  intros H. apply isSafeNumber_range in H. unfold isUint256.
  apply andb_true_intro. split; [lia|].
  apply Z.ltb_lt. assert (2 ^ 53 < 2 ^ 256) by (apply Z.pow_lt_mono_r; lia). lia.
Qed.

Lemma solidityPack_number (n : Z) :
  isSafeNumber n = true ->
  solidityPack {| t := "uint256"; v := v_num n |} = Ok (uint256 n).
Proof.
  intros H. apply solidityPack_uint256; [|apply isSafeNumber_isUint256, H].
  apply isSafeNumber_range in H. unfold parseNumber.
  destruct (Z.abs n <? 2 ^ 53) eqn:E; [reflexivity|]. lia.
Qed.

Lemma hexToBytes_nonempty (c : ascii) (s : string) (bs : list byte) :
  hexToBytes (String c s) = Some bs -> (0 < length bs)%nat.
Proof.
  destruct s as [|l rest]; [discriminate|]. cbn [hexToBytes].
  destruct (hexDigitValue c), (hexDigitValue l), (hexToBytes rest);
    intros [= <-]; cbn; lia.
Qed.

(** ** The hashing functions compute the digests of section 4.3 *)

Ltac split_wf :=
  repeat match goal with
         | H : (_ && _) = true |- _ => apply andb_prop in H; destruct H
         end.

Ltac pack_one :=
  lazymatch goal with
  | |- solidityPack {| t := _; v := v_str (toString _) |} = _ =>
      eapply solidityPack_uint256; [apply parseNumber_toString | assumption]
  | |- solidityPack {| t := _; v := v_num _ |} = _ =>
      apply solidityPack_number; assumption
  | |- solidityPack {| t := _; v := v_str (addressToBytes32 _) |} = _ =>
      apply solidityPack_address; assumption
  | |- solidityPack {| t := _; v := v_str (digestHex _) |} = _ =>
      apply solidityPack_digest
  | |- solidityPack {| t := _; v := v_str "0x1901" |} = _ =>
      apply solidityPack_bytes; reflexivity
  end.

Ltac pack_all :=
  repeat first [ apply mapM_ok_nil | eapply mapM_ok_cons; [pack_one|] ].

(** The packed bytes start with a block that is not empty. *)
Ltac first_block :=
  cbn [concat]; rewrite length_app; apply Nat.add_pos_l;
  first [ rewrite keccak256_length; lia | vm_compute; lia ].

Ltac sha3_ok := erewrite soliditySha3_ok; [ | pack_all | first_block ].

Ltac sha3_done := sha3_ok; cbn [concat]; rewrite app_nil_r; reflexivity.

Lemma hashBytes_spec (d : string) :
  isHexData d = true -> hashBytes d = Ok (digestHex (hash (bytesOf d))).
Proof.
  unfold isHexData, bytesOf, hashBytes, hexBytes. intros H.
  destruct (stripHexPrefix d) as [|c s] eqn:Ed; [reflexivity|].
  destruct (hexToBytes (String c s)) as [bs|] eqn:E; [|discriminate].
  erewrite soliditySha3_ok;
    [ | eapply mapM_ok_cons; [apply solidityPack_bytes; exact E | apply mapM_ok_nil]
      | cbn [concat]; rewrite app_nil_r; eapply hexToBytes_nonempty, E ].
  cbn [concat default]. rewrite app_nil_r. reflexivity.
Qed.

Lemma getAssetAmountHash_spec (this : SignedOperations) (a : AssetAmount) :
  wf_AssetAmount a = true ->
  getAssetAmountHash this a = Ok (digestHex (spec_hashAssetAmount a)).
Proof.
  intros H. unfold wf_AssetAmount in H. split_wf.
  assert (isUint256 (if sign a then 1 else 0) = true) by (destruct (sign a); reflexivity).
  unfold getAssetAmountHash, spec_hashAssetAmount, hashString. sha3_done.
Qed.

Lemma getActionHash_spec (this : SignedOperations) (act : Action) :
  wf_Action act = true ->
  getActionHash this act = Ok (digestHex (spec_hashAction act)).
Proof.
  intros H. unfold wf_Action in H. split_wf.
  unfold getActionHash.
  rewrite getAssetAmountHash_spec by assumption.
  rewrite hashBytes_spec by assumption.
  cbn [mbind result_bind].
  unfold spec_hashAction, spec_hashAssetAmount, hashString, hash. sha3_done.
Qed.

Lemma actionsAsHashes_spec (this : SignedOperations) (acts : list Action) :
  forallb wf_Action acts = true ->
  mapM (fun action =>
          h ← getActionHash this action;
          mret {| t := "bytes32"; v := v_str h |}) acts
  = Ok (map (fun act => {| t := "bytes32"; v := v_str (digestHex (spec_hashAction act)) |})
            acts).
Proof.
  induction acts as [|act acts IH]; intros H; [reflexivity|].
  cbn [forallb] in H. apply andb_prop in H as [Ha Hs].
  cbn [map]. apply mapM_ok_cons; [|auto].
  rewrite getActionHash_spec by assumption. reflexivity.
Qed.

Lemma pack_action_digests (acts : list Action) :
  mapM solidityPack
    (map (fun act => {| t := "bytes32"; v := v_str (digestHex (spec_hashAction act)) |})
         acts)
  = Ok (map spec_hashAction acts).
Proof.
  induction acts as [|act acts IH]; [reflexivity|].
  cbn [map]. apply mapM_ok_cons; [|exact IH].
  unfold spec_hashAction. apply solidityPack_digest.
Qed.

Lemma actionsPreimage_spec (this : SignedOperations) (acts : list Action) :
  forallb wf_Action acts = true ->
  actionsPreimage this acts = Ok (concat (map spec_hashAction acts)).
Proof.
  intros H. unfold actionsPreimage.
  rewrite actionsAsHashes_spec by assumption. cbn [mbind result_bind].
  rewrite pack_action_digests. reflexivity.
Qed.

Lemma getActionsHash_nil (this : SignedOperations) : getActionsHash this [] = Null.
Proof. reflexivity. Qed.

Lemma getActionsHash_spec (this : SignedOperations) (acts : list Action) :
  acts <> [] ->
  forallb wf_Action acts = true ->
  getActionsHash this acts = Ok (digestHex (spec_hashActions acts)).
Proof.
  intros Hne H. unfold getActionsHash.
  rewrite actionsAsHashes_spec by assumption. cbn [mbind result_bind].
  erewrite soliditySha3_ok; [ | apply pack_action_digests | ]; [reflexivity|].
  destruct acts as [|act acts]; [congruence|].
  cbn [map concat]. rewrite length_app. apply Nat.add_pos_l.
  unfold spec_hashAction, hash. rewrite keccak256_length. lia.
Qed.

Lemma getDomainHash_spec (this : SignedOperations) :
  wf_instance this = true ->
  getDomainHash this = Ok (digestHex (spec_domainHash this)).
Proof.
  intros H. unfold wf_instance in H. split_wf.
  unfold getDomainHash, spec_domainHash, hashString. sha3_done.
Qed.

(** Without an action there is no digest: [getActionsHash] returns null
    and the packing of the basic hash throws on it. *)
Lemma getOperationHash_no_actions (this : SignedOperations) (op : Operation) :
  actions op = [] -> getOperationHash this op = Throw EncodingError.
Proof. intros H. unfold getOperationHash. rewrite H. reflexivity. Qed.

Lemma getOperationHash_spec (this : SignedOperations) (op : Operation) :
  wf_instance this = true -> wf_Operation op = true -> actions op <> [] ->
  getOperationHash this op = Ok (digestHex (spec_hashOperation this op)).
Proof.
  intros Ht H Hne. unfold wf_Operation in H. split_wf.
  unfold getOperationHash.
  rewrite getActionsHash_spec by assumption. cbn [mbind result_bind].
  unfold hashString, spec_hashActions, hash.
  sha3_ok. cbn [mbind result_bind].
  rewrite getDomainHash_spec by assumption. cbn [mbind result_bind].
  unfold spec_domainHash, hash.
  sha3_ok.
  cbn [concat]. rewrite !app_nil_r. reflexivity.
Qed.

Lemma operationHashToCancelOperationHash_spec (this : SignedOperations) (h : string) :
  isDigest h = true ->
  operationHashToCancelOperationHash this h
  = Ok (digestHex (spec_cancelHash (bytesOf h))).
Proof.
  intros H. apply isHexOfLength_inv in H as [Hb Hl].
  unfold operationHashToCancelOperationHash.
  erewrite soliditySha3_ok;
    [ | eapply mapM_ok_cons; [apply solidityPack_string|];
        eapply mapM_ok_cons; [|apply mapM_ok_nil];
        apply solidityPack_bytes32; eassumption
      | first_block ].
  cbn [concat]. rewrite app_nil_r. reflexivity.
Qed.

Lemma isDigest_hash (bs : list byte) : isDigest (digestHex (hash bs)) = true.
Proof. apply isDigest_digestHex, keccak256_length. Qed.

Lemma bytesOf_hashString (s : string) : bytesOf (hashString s) = hash (utf8 s).
Proof. apply bytesOf_digestHex. Qed.

Lemma mapM_getActionHash_spec (this : SignedOperations) (acts : list Action) :
  forallb wf_Action acts = true ->
  mapM (getActionHash this) acts
  = Ok (map (fun act => digestHex (spec_hashAction act)) acts).
Proof.
  induction acts as [|act acts IH]; intros H; [reflexivity|].
  cbn [forallb] in H. apply andb_prop in H as [Ha Hs].
  cbn [map]. apply mapM_ok_cons; [apply getActionHash_spec, Ha | auto].
Qed.

Lemma map_bytesOf_digests (acts : list Action) :
  map bytesOf (map (fun act => digestHex (spec_hashAction act)) acts)
  = map spec_hashAction acts.
Proof.
  rewrite map_map. apply map_ext. intros act. apply bytesOf_digestHex.
Qed.

Lemma concat_blocks_inj (n : nat) (l1 l2 : list (list byte)) :
  (0 < n)%nat ->
  Forall (fun b => length b = n) l1 -> Forall (fun b => length b = n) l2 ->
  concat l1 = concat l2 -> l1 = l2.
Proof.
  intros Hn H1. revert l2.
  induction H1 as [|b l1 Hb H1 IH]; intros l2 H2 E.
  - destruct H2 as [|c l2 Hc H2]; [reflexivity|].
    cbn in E. apply (f_equal length) in E. rewrite length_app in E. cbn in E. lia.
  - destruct H2 as [|c l2 Hc H2].
    + cbn in E. apply (f_equal length) in E. rewrite length_app in E. cbn in E. lia.
    + cbn [concat] in E. apply app_inj_1 in E as [E1 E2]; [|congruence].
      f_equal; [exact E1 | apply IH; assumption].
Qed.

Lemma Forall_length_spec_hashAction (acts : list Action) :
  Forall (fun b => length b = 32%nat) (map spec_hashAction acts).
Proof.
  induction acts as [|act acts IH]; cbn [map]; constructor;
    [apply keccak256_length | exact IH].
Qed.

(** The case of the hex digits of an address does not reach the hashed
    bytes: the two sample actions differ as values and are packed alike,
    whatever the hash function. *)
Lemma actionsPreimage_blind_to_case (this : SignedOperations) :
  actionsPreimage this [sampleAction; sampleActionMixed]
  = actionsPreimage this [sampleActionMixed; sampleAction].
Proof.
  rewrite !actionsPreimage_spec by reflexivity.
  assert (E : spec_hashAction sampleActionMixed = spec_hashAction sampleAction)
    by reflexivity.
  cbn [map]. rewrite E. reflexivity.
Qed.

Lemma toString_canonical (z : Z) :
  Z.of_int <$> NilZero.int_of_string (toString z) = Some z.
Proof. apply (parseNumber_toString z). Qed.

Lemma ecRecoverTypedSignature_malformed (h typedSig : string) :
  isTypedSignature typedSig = false ->
  ecRecoverTypedSignature h typedSig = Throw InvalidSignature.
Proof. intros H. unfold ecRecoverTypedSignature. rewrite H. reflexivity. Qed.

Lemma ecRecoverTypedSignature_unknown_tag (h typedSig : string) :
  isTypedSignature typedSig = true ->
  recoveryFor (signatureTag typedSig) = None ->
  ecRecoverTypedSignature h typedSig = Throw UnsupportedSignatureType.
Proof. intros H Ht. unfold ecRecoverTypedSignature. rewrite H, Ht. reflexivity. Qed.

(** The recovery throws nothing but the two errors of section 7. *)
Lemma ecRecoverTypedSignature_errors (h typedSig : string) (e : Error) :
  ecRecoverTypedSignature h typedSig = Throw e ->
  e = InvalidSignature \/ e = UnsupportedSignatureType.
Proof.
  unfold ecRecoverTypedSignature.
  destruct (isTypedSignature typedSig); [|intros [= <-]; auto].
  destruct (recoveryFor (signatureTag typedSig)) as [recover|]; [|intros [= <-]; auto].
  destruct (recover _ _); cbn; [discriminate | intros [= <-]; auto].
Qed.

Lemma signer_mismatch (a expectedSigner : string) :
  toLowerCase (stripHexPrefix a) <> toLowerCase (stripHexPrefix expectedSigner) ->
  (mret (addressesAreEqual a expectedSigner) : result bool) = Ok false.
Proof.
  intros Hne. unfold addressesAreEqual. apply String.eqb_neq in Hne.
  rewrite Hne. reflexivity.
Qed.

Lemma soliditySha3_Ok_isDigest (args : list SolArg) (d : string) :
  soliditySha3 args = Ok d -> isDigest d = true.
Proof.
  unfold soliditySha3. destruct (mapM solidityPack args) as [packed|e|];
    cbn [mbind result_bind]; [|discriminate|discriminate].
  destruct (concat packed); [discriminate|].
  intros [= <-]. apply isDigest_hash.
Qed.

Lemma getOperationHash_Ok_isDigest (this : SignedOperations) (op : Operation)
    (h : string) :
  getOperationHash this op = Ok h -> isDigest h = true.
Proof.
  unfold getOperationHash.
  destruct (getActionsHash this (actions op)); cbn [mbind result_bind];
    [|discriminate|discriminate].
  destruct (soliditySha3 _); cbn [mbind result_bind]; [|discriminate|discriminate].
  destruct (getDomainHash this); cbn [mbind result_bind]; [|discriminate|discriminate].
  apply soliditySha3_Ok_isDigest.
Qed.

Lemma session_snoc (this this' : SignedOperations) (steps : list Step) :
  session this (steps ++ [Configure this'; AskDomainHash])
  = session this steps ++ [getDomainHash this'].
Proof.
  revert this. induction steps as [|[t|] steps IH]; intros this; cbn [app session].
  - reflexivity.
  - apply IH.
  - rewrite IH. reflexivity.
Qed.

Lemma Forall2_of_map {A C : Type} (g : A -> C) (R : A -> A -> Prop) (l1 l2 : list A) :
  map g l1 = map g l2 ->
  (forall a b, In a l1 -> In b l2 -> g a = g b -> R a b) ->
  Forall2 R l1 l2.
Proof.
  revert l2. induction l1 as [|a l1 IH]; intros [|b l2] E H;
    try discriminate E; constructor.
  - cbn [map] in E. injection E as Eh Et. apply H; cbn; auto.
  - cbn [map] in E. injection E as Eh Et. apply IH; [exact Et|].
    intros x y Hx Hy. apply H; cbn; auto.
Qed.

Lemma spec_hashAction_sameBytes (a b : Action) :
  sameBytes a b -> spec_hashAction a = spec_hashAction b.
Proof.
  intros (Ht & Ho & Hn & Ha & Hp & Hs & Hx & Hy & Hz & Hd).
  unfold spec_hashAction, padded. rewrite Ht, Ho, Hn, Ha, Hp, Hs, Hx, Hy, Hz, Hd.
  reflexivity.
Qed.

(** ** The claims *)

(** C1: an operation without actions has no digest: [getActionsHash]
    returns null on the empty list and the packing of the basic hash throws
    on it.  For a well-typed operation with an action, [getOperationHash] is
    the hash of [0x1901], the domain digest and the basic hash, in this
    order; the basic hash is the hash of the Operation type-signature
    digest, the digest of the actions, the expiration and the salt as
    32-byte integers and the sender left-padded to 32 bytes. *)
Theorem getOperationHash_composition (this : SignedOperations) (op : Operation) :
  wf_instance this = true -> wf_Operation op = true ->
  (actions op = [] ->
     getActionsHash this (actions op) = Null /\
     getOperationHash this op = Throw EncodingError) /\
  (actions op <> [] ->
   exists domainHash actionsHash : string,
     getDomainHash this = Ok domainHash /\
     getActionsHash this (actions op) = Ok actionsHash /\
     let basicHash :=
       hash (bytesOf (hashString EIP712_OPERATION_STRING)
             ++ bytesOf actionsHash
             ++ be_bytes 32 (expiration op)
             ++ be_bytes 32 (salt op)
             ++ (zeros 12 ++ bytesOf (sender op))) in
     getOperationHash this op
     = Ok (digestHex (hash ([x19; x01] ++ bytesOf domainHash ++ basicHash)))).
Proof.
  intros Ht Ho. split.
  - intros Hnil. split; [rewrite Hnil; reflexivity|].
    apply getOperationHash_no_actions, Hnil.
  - intros Hne.
    exists (digestHex (spec_domainHash this)), (digestHex (spec_hashActions (actions op))).
    pose proof Ho as Ho'. unfold wf_Operation in Ho'. split_wf.
    split; [apply getDomainHash_spec; assumption|].
    split; [apply getActionsHash_spec; assumption|].
    cbn zeta. rewrite !bytesOf_digestHex, bytesOf_hashString.
    apply getOperationHash_spec; assumption.
Qed.

(** C2: [getActionsHash] returns null on the empty list, and the operation
    with no actions, expiration 0, salt 0 and the zero sender makes
    [getOperationHash] throw instead of giving a digest.  On every other
    well-typed input the hashing functions return a digest. *)
Theorem hashing_functions_total (this : SignedOperations) :
  wf_instance this = true ->
  getActionsHash this [] = Null /\
  getOperationHash this emptyOperation = Throw EncodingError /\
  (forall a, wf_AssetAmount a = true ->
     exists d, getAssetAmountHash this a = Ok d /\ isDigest d = true) /\
  (forall act, wf_Action act = true ->
     exists d, getActionHash this act = Ok d /\ isDigest d = true) /\
  (forall acts, acts <> [] -> forallb wf_Action acts = true ->
     exists d, getActionsHash this acts = Ok d /\ isDigest d = true) /\
  (forall op, wf_Operation op = true -> actions op <> [] ->
     exists d, getOperationHash this op = Ok d /\ isDigest d = true) /\
  (forall h, isDigest h = true ->
     exists d, operationHashToCancelOperationHash this h = Ok d /\ isDigest d = true).
Proof.
  intros Ht.
  split; [reflexivity|]. split; [reflexivity|].
  split; [|split; [|split; [|split]]].
  - intros a H. eexists. split; [apply getAssetAmountHash_spec, H|apply isDigest_hash].
  - intros a H. eexists. split; [apply getActionHash_spec, H|apply isDigest_hash].
  - intros a Hne H. eexists.
    split; [apply getActionsHash_spec; assumption|apply isDigest_hash].
  - intros a H Hne. eexists.
    split; [apply getOperationHash_spec; assumption|apply isDigest_hash].
  - intros h H. eexists.
    split; [apply operationHashToCancelOperationHash_spec, H|apply isDigest_hash].
Qed.

(** C3: two operations with the same actions, expiration, salt and sender
    have the same digest, whatever their signers. *)
Theorem getOperationHash_ignores_signer (this : SignedOperations) (op op' : Operation) :
  actions op = actions op' -> expiration op = expiration op' ->
  salt op = salt op' -> sender op = sender op' ->
  getOperationHash this op = getOperationHash this op'.
Proof.
  intros Ha He Hs Hd. unfold getOperationHash. rewrite Ha, He, Hs, Hd. reflexivity.
Qed.

(** C4: [getDomainHash] is the hash of the domain type-signature digest, the
    digests of the name and of the version, the network id as a 32-byte
    integer and the contract address left-padded to 32 bytes; it depends on
    nothing but the network id and the contract address; and nothing is
    kept from one call to the next: whatever was asked before, the answer
    after the configuration was replaced is the digest of the new
    configuration. *)
Theorem getDomainHash_composition :
  (forall this : SignedOperations,
     wf_instance this = true ->
     getDomainHash this
     = Ok (digestHex
             (hash (bytesOf (hashString EIP712_DOMAIN_STRING)
                    ++ bytesOf (hashString "SignedOperationProxy")
                    ++ bytesOf (hashString "1.0")
                    ++ be_bytes 32 (networkId this)
                    ++ (zeros 12
                        ++ bytesOf (options_address
                                      (signedOperationProxy (contracts this)))))))) /\
  (forall this this' : SignedOperations,
     networkId this = networkId this' ->
     options_address (signedOperationProxy (contracts this))
     = options_address (signedOperationProxy (contracts this')) ->
     getDomainHash this = getDomainHash this') /\
  (forall (this this' : SignedOperations) (steps : list Step),
     wf_instance this' = true ->
     last (session this (steps ++ [Configure this'; AskDomainHash]))
     = Some (Ok (digestHex
                   (hash (bytesOf (hashString EIP712_DOMAIN_STRING)
                          ++ bytesOf (hashString "SignedOperationProxy")
                          ++ bytesOf (hashString "1.0")
                          ++ be_bytes 32 (networkId this')
                          ++ (zeros 12
                              ++ bytesOf (options_address
                                            (signedOperationProxy
                                               (contracts this'))))))))).
Proof.
  split; [|split].
  - intros this H. rewrite !bytesOf_hashString. apply getDomainHash_spec, H.
  - intros this this' Hn Ha. unfold getDomainHash. rewrite Hn, Ha. reflexivity.
  - intros this this' steps H. rewrite session_snoc, last_snoc.
    rewrite !bytesOf_hashString, getDomainHash_spec by assumption. reflexivity.
Qed.

(** C5: the cancel digest of an operation digest [h] is the hash of the
    text [cancel] followed by the 32 bytes of [h]; the hashed bytes do not
    start with [0x1901], and the result does not depend on the instance,
    hence not on the domain. *)
Theorem cancelHash_composition (this : SignedOperations) (h : string) :
  isDigest h = true ->
  operationHashToCancelOperationHash this h
  = Ok (digestHex (hash (utf8 "cancel" ++ bytesOf h))) /\
  take 2 (utf8 "cancel" ++ bytesOf h) <> [x19; x01] /\
  (forall this' : SignedOperations,
     operationHashToCancelOperationHash this' h
     = operationHashToCancelOperationHash this h).
Proof.
  intros H. split; [apply operationHashToCancelOperationHash_spec, H|].
  split; [cbn; discriminate | reflexivity].
Qed.

(** C6: the type-signature strings are the field list of the struct
    followed at once by the string of the struct it refers to: Action's is
    followed by AssetAmount's, Operation's by Action's. *)
Theorem type_strings_composition :
  EIP712_ASSET_AMOUNT_STRING
  = spec_signature "AssetAmount" EIP712_ASSET_AMOUNT_STRUCT /\
  EIP712_ACTION_STRING
  = spec_signature "Action" EIP712_ACTION_STRUCT +:+ EIP712_ASSET_AMOUNT_STRING /\
  EIP712_OPERATION_STRING
  = spec_signature "Operation" EIP712_OPERATION_STRUCT +:+ EIP712_ACTION_STRING /\
  EIP712_OPERATION_STRING
  = spec_signature "Operation" EIP712_OPERATION_STRUCT
    +:+ spec_signature "Action" EIP712_ACTION_STRUCT
    +:+ spec_signature "AssetAmount" EIP712_ASSET_AMOUNT_STRUCT.
Proof. repeat split; reflexivity. Qed.

(** C7, amended: for a list with an action, [getActionsHash] hashes the
    concatenation of the digests of the actions in sequence order; two lists
    that are permutations of each other and are not the same position by
    position up to the spelling of their hexadecimal strings are hashed from
    different bytes, as long as no two actions of the list that differ by
    more than spelling have the same digest; two lists that are the same
    position by position up to spelling are hashed from the same bytes. *)
Theorem getActionsHash_in_order (this : SignedOperations) :
  (forall acts : list Action,
     acts <> [] ->
     forallb wf_Action acts = true ->
     exists hs : list string,
       mapM (getActionHash this) acts = Ok hs /\
       actionsPreimage this acts = Ok (concat (map bytesOf hs)) /\
       getActionsHash this acts = Ok (digestHex (hash (concat (map bytesOf hs))))) /\
  (forall l1 l2 : list Action,
     forallb wf_Action l1 = true ->
     Permutation l1 l2 ->
     (forall a b : Action,
        In a l1 -> In b l1 ->
        getActionHash this a = getActionHash this b -> sameBytes a b) ->
     ~ Forall2 sameBytes l1 l2 ->
     actionsPreimage this l1 <> actionsPreimage this l2) /\
  (forall l1 l2 : list Action,
     forallb wf_Action l1 = true -> forallb wf_Action l2 = true ->
     Forall2 sameBytes l1 l2 ->
     actionsPreimage this l1 = actionsPreimage this l2).
Proof.
  split; [|split].
  - intros acts Hne H.
    exists (map (fun act => digestHex (spec_hashAction act)) acts).
    rewrite map_bytesOf_digests.
    split; [apply mapM_getActionHash_spec, H|].
    split; [apply actionsPreimage_spec, H | apply getActionsHash_spec; assumption].
  - intros l1 l2 H1 Hperm Hcoll Hne E. apply Hne.
    assert (forall a, In a l1 -> wf_Action a = true) as Hwf1
      by (apply forallb_forall, H1).
    assert (forall b, In b l2 -> In b l1) as Hin
      by (intros b Hb; apply (Permutation_in b (Permutation_sym Hperm) Hb)).
    assert (forallb wf_Action l2 = true) as H2
      by (apply forallb_forall; intros b Hb; apply Hwf1, Hin, Hb).
    rewrite !actionsPreimage_spec in E by assumption.
    assert (concat (map spec_hashAction l1) = concat (map spec_hashAction l2)) as E'
      by congruence.
    apply concat_blocks_inj with (n := 32%nat) in E';
      [| lia | apply Forall_length_spec_hashAction ..].
    apply (Forall2_of_map spec_hashAction); [exact E'|].
    intros a b Ha Hb Hab. apply Hcoll; [exact Ha | apply Hin, Hb |].
    rewrite !getActionHash_spec by (apply Hwf1; auto). rewrite Hab. reflexivity.
  - intros l1 l2 H1 H2 Hsame.
    rewrite !actionsPreimage_spec by assumption. do 2 f_equal.
    clear H1 H2. induction Hsame as [|a b l1 l2 Hab Hsame IH]; [reflexivity|].
    cbn [map]. rewrite (spec_hashAction_sameBytes a b Hab), IH. reflexivity.
Qed.

(** C8: for an operation that has a digest, the two predicates recover an
    address from the operation digest, respectively the cancel digest, and
    the typed signature, and compare it with the claimed signer without
    regard to case; when another address is recovered they return false; a
    typed signature of the wrong shape makes them throw [InvalidSignature],
    an unrecognised tag [UnsupportedSignatureType], and every error of the
    recovery is passed on. *)
Theorem signature_predicates (this : SignedOperations) (op : Operation)
    (typedSig h : string) :
  getOperationHash this op = Ok h ->
  exists c : string,
    operationHashToCancelOperationHash this h = Ok c /\
    (forall a, ecRecoverTypedSignature h typedSig = Ok a ->
       operationHasValidSignature this {| operation := op; typedSignature := typedSig |}
       = Ok (String.eqb (toLowerCase (stripHexPrefix a))
                        (toLowerCase (stripHexPrefix (signer op))))) /\
    (forall a, ecRecoverTypedSignature h typedSig = Ok a ->
       toLowerCase (stripHexPrefix a) <> toLowerCase (stripHexPrefix (signer op)) ->
       operationHasValidSignature this {| operation := op; typedSignature := typedSig |}
       = Ok false) /\
    (forall e, ecRecoverTypedSignature h typedSig = Throw e ->
       operationHasValidSignature this {| operation := op; typedSignature := typedSig |}
       = Throw e) /\
    (forall a, ecRecoverTypedSignature c typedSig = Ok a ->
       cancelOperationHasValidSignature this op typedSig
       = Ok (String.eqb (toLowerCase (stripHexPrefix a))
                        (toLowerCase (stripHexPrefix (signer op))))) /\
    (forall a, ecRecoverTypedSignature c typedSig = Ok a ->
       toLowerCase (stripHexPrefix a) <> toLowerCase (stripHexPrefix (signer op)) ->
       cancelOperationHasValidSignature this op typedSig = Ok false) /\
    (forall e, ecRecoverTypedSignature c typedSig = Throw e ->
       cancelOperationHasValidSignature this op typedSig = Throw e) /\
    (isTypedSignature typedSig = false ->
       operationHasValidSignature this {| operation := op; typedSignature := typedSig |}
       = Throw InvalidSignature /\
       cancelOperationHasValidSignature this op typedSig = Throw InvalidSignature) /\
    (isTypedSignature typedSig = true ->
     recoveryFor (signatureTag typedSig) = None ->
       operationHasValidSignature this {| operation := op; typedSignature := typedSig |}
       = Throw UnsupportedSignatureType /\
       cancelOperationHasValidSignature this op typedSig
       = Throw UnsupportedSignatureType).
Proof.
  intros Hh.
  pose proof (operationHashToCancelOperationHash_spec this h
                (getOperationHash_Ok_isDigest this op h Hh)) as Hc.
  eexists. split; [exact Hc|].
  unfold operationHasValidSignature, cancelOperationHasValidSignature,
    cancelOperationByHashHasValidSignature, operationByHashHasValidSignature.
  cbn [operation typedSignature]. rewrite Hh. cbn [mbind result_bind]. rewrite Hc.
  cbn [mbind result_bind].
  split; [intros a Ha; rewrite Ha; reflexivity|].
  split; [intros a Ha Hne; rewrite Ha; apply signer_mismatch, Hne|].
  split; [intros e He; rewrite He; reflexivity|].
  split; [intros a Ha; rewrite Ha; reflexivity|].
  split; [intros a Ha Hne; rewrite Ha; apply signer_mismatch, Hne|].
  split; [intros e He; rewrite He; reflexivity|].
  split.
  - intros Hs. rewrite !(ecRecoverTypedSignature_malformed _ _ Hs). split; reflexivity.
  - intros Hs Htag. rewrite !(ecRecoverTypedSignature_unknown_tag _ _ Hs Htag).
    split; reflexivity.
Qed.

(** C9, amended: the payload holds the operation with every integer field
    as its base-10 string and the address fields [accountOwner],
    [otherAccountOwner], [sender] and [verifyingContract] as the caller
    supplied them, the primary type [Operation] and the domain descriptor. *)
Theorem typedData_payload (this : SignedOperations) (op : Operation) :
  get "primaryType" (typedData this op) = Some (JString "Operation") /\
  get "domain" (typedData this op)
  = Some (JObject
            [ ("name", JString "SignedOperationProxy");
              ("version", JString "1.0");
              ("chainId", JNumber (networkId this));
              ("verifyingContract",
               JString (options_address (signedOperationProxy (contracts this)))) ]%string) /\
  (exists message : Json,
     get "message" (typedData this op) = Some message /\
     get "actions" message = Some (JArray (map actionData (actions op))) /\
     get "expiration" message = Some (JString (toString (expiration op))) /\
     get "salt" message = Some (JString (toString (salt op))) /\
     get "sender" message = Some (JString (sender op))) /\
  (forall action : Action,
     get "actionType" (actionData action)
     = Some (JString (toString (actionType action))) /\
     get "accountNumber" (actionData action)
     = Some (JString (toString (primaryAccountNumber action))) /\
     get "assetAmount" (actionData action) ≫= get "denomination"
     = Some (JString (toString (denomination (amount action)))) /\
     get "assetAmount" (actionData action) ≫= get "ref"
     = Some (JString (toString (ref (amount action)))) /\
     get "assetAmount" (actionData action) ≫= get "value"
     = Some (JString (toString (value (amount action)))) /\
     get "primaryMarketId" (actionData action)
     = Some (JString (toString (primaryMarketId action))) /\
     get "secondaryMarketId" (actionData action)
     = Some (JString (toString (secondaryMarketId action))) /\
     get "otherAccountNumber" (actionData action)
     = Some (JString (toString (secondaryAccountNumber action))) /\
     get "accountOwner" (actionData action)
     = Some (JString (primaryAccountOwner action)) /\
     get "otherAccountOwner" (actionData action)
     = Some (JString (secondaryAccountOwner action))) /\
  (forall z : Z, Z.of_int <$> NilZero.int_of_string (toString z) = Some z).
Proof.
  split; [reflexivity|]. split; [reflexivity|].
  split; [eexists; repeat split; reflexivity|].
  split; [intros action; repeat split; reflexivity | apply toString_canonical].
Qed.

(** C10: with a caller-supplied options object, [cancelOperation] hands the
    dispatcher the caller's own object, in a store where the [from] property
    of that object is the signer of the operation, whatever it was before;
    the other properties and the other objects are as they were. *)
Theorem cancelOperation_overwrites_from (this : SignedOperations) (op : Operation)
    (l : loc) (σ : store) (o : object) (h : string) :
  getOperationHash this op = Ok h ->
  σ !! l = Some o ->
  exists (o' : object) (σ' : store),
    cancelOperation this op (Some l) σ
    = callContractFunction (cancel h) (Some l) σ' /\
    σ' !! l = Some o' /\
    o' !! "from" = Some (JString (signer op)) /\
    (forall k : string, k <> "from" -> o' !! k = o !! k) /\
    (forall l' : loc, l' <> l -> σ' !! l' = σ !! l').
Proof.
  intros Hh Hl.
  exists (<["from" := JString (signer op)]> o),
         (<[l := <["from" := JString (signer op)]> o]> σ).
  split.
  - unfold cancelOperation, cancelOperationByHash, setProperty.
    rewrite Hh, Hl. reflexivity.
  - unfold store, object in *.
    split; [apply lookup_insert_eq|].
    split; [apply lookup_insert_eq|].
    split; intros k Hk; apply lookup_insert_ne; congruence.
Qed.

(** ** Further properties of the module *)

Lemma Z_of_byte_of_Z (z : Z) : Z_of_byte (byte_of_Z z) = z mod 256.
Proof.
  unfold Z_of_byte, byte_of_Z.
  pose proof (Z.mod_pos_bound z 256 ltac:(lia)) as Hb.
  destruct (Byte.of_N (Z.to_N (z mod 256))) as [b|] eqn:E.
  - apply Byte.to_of_N in E. rewrite E. apply Z2N.id. lia.
  - apply Byte.of_N_None_iff in E. lia.
Qed.

Lemma be_bytes_inj (n : nat) (z z' : Z) :
  0 <= z < 256 ^ Z.of_nat n -> 0 <= z' < 256 ^ Z.of_nat n ->
  be_bytes n z = be_bytes n z' -> z = z'.
Proof.
  revert z z'. induction n as [|n IH]; intros z z' Hz Hz' E.
  - cbn in Hz, Hz'. lia.
  - cbn [be_bytes] in E. apply app_inj_tail in E as [E1 E2].
    apply (f_equal Z_of_byte) in E2. rewrite !Z_of_byte_of_Z in E2.
    rewrite Nat2Z.inj_succ, Z.pow_succ_r in Hz, Hz' by lia.
    assert (z / 256 = z' / 256) as Hq.
    { apply IH; [| | exact E1].
      - split; [apply Z.div_pos; lia | apply Z.div_lt_upper_bound; lia].
      - split; [apply Z.div_pos; lia | apply Z.div_lt_upper_bound; lia]. }
    rewrite (Z.div_mod z 256), (Z.div_mod z' 256) by lia. rewrite Hq, E2. reflexivity.
Qed.

Lemma uint256_inj (z z' : Z) :
  isUint256 z = true -> isUint256 z' = true -> uint256 z = uint256 z' -> z = z'.
Proof.
  intros Hz Hz'. apply isUint256_range in Hz, Hz'.
  apply be_bytes_inj; change (256 ^ Z.of_nat 32) with (2 ^ 256); assumption.
Qed.

Lemma solidityPack_uint256_toString (z : Z) :
  solidityPack {| t := "uint256"; v := v_str (toString z) |}
  = if isUint256 z then Ok (uint256 z) else Throw EncodingError.
Proof.
  destruct (isUint256 z) eqn:E.
  - apply solidityPack_uint256; [apply parseNumber_toString | exact E].
  - unfold solidityPack. cbn [t v String.eqb Ascii.eqb Bool.eqb].
    rewrite parseNumber_toString. cbn [of_option mbind result_bind].
    unfold isUint256 in E.
    destruct (z <? 0) eqn:E1; [reflexivity|].
    destruct (2 ^ 256 <=? z) eqn:E2; [reflexivity|].
    apply andb_false_iff in E. lia.
Qed.

Lemma mapM_cons_eq {A B : Type} (f : A -> result B) (x : A) (xs : list A) :
  mapM f (x :: xs) = (y ← f x; ys ← mapM f xs; mret (y :: ys)).
Proof. reflexivity. Qed.

Ltac bind_step := cbn [mbind result_bind mret result_ret].

(** X1: without an options object, [cancelOperation] hands the dispatcher a
    new object that holds the signer as [from] and nothing else; that object
    was not in the store, and the objects of the store are as they were. *)
Theorem cancelOperation_without_options (this : SignedOperations) (op : Operation)
    (σ : store) (h : string) :
  getOperationHash this op = Ok h ->
  exists l : loc,
    cancelOperation this op None σ
    = callContractFunction (cancel h) (Some l)
        (<[l := {["from" := JString (signer op)]}]> σ) /\
    σ !! l = None /\
    (forall l' : loc, l' <> l ->
       (<[l := {["from" := JString (signer op)]}]> σ : store) !! l' = σ !! l').
Proof.
  intros Hh. exists (fresh (dom σ)).
  split; [|split].
  - unfold cancelOperation, cancelOperationByHash, setProperty. rewrite Hh.
    unfold store, object in *.
    rewrite lookup_insert_eq, insert_insert_eq. cbn [default id].
    rewrite insert_empty. reflexivity.
  - unfold store, object in *. apply not_elem_of_dom, is_fresh.
  - intros l' Hne. unfold store, object in *. apply lookup_insert_ne. congruence.
Qed.

(** An operation whose expiration or salt is outside of [uint256] has no
    digest. *)
Lemma getOperationHash_out_of_range (this : SignedOperations) (op : Operation) :
  forallb wf_Action (actions op) = true ->
  isUint256 (expiration op) && isUint256 (salt op) = false ->
  getOperationHash this op = Throw EncodingError.
Proof.
  intros Ha Hr.
  destruct (actions op) as [|act acts] eqn:Hacts;
    [apply getOperationHash_no_actions, Hacts|].
  unfold getOperationHash. rewrite Hacts.
  rewrite getActionsHash_spec by (assumption || discriminate). bind_step.
  unfold soliditySha3. rewrite !mapM_cons_eq.
  unfold hashString, spec_hashActions, hash.
  rewrite !solidityPack_digest, !solidityPack_uint256_toString. bind_step.
  destruct (isUint256 (expiration op)); [|reflexivity].
  destruct (isUint256 (salt op)); [discriminate|reflexivity].
Qed.

(** X2: an operation whose expiration or salt does not fit [uint256] is
    turned down before anything happens: [cancelOperation] leaves the store
    and the caller's options as they are and dispatches nothing, the signing
    functions make no request, and [getOperationsAreInvalid] makes no call,
    wherever the operation stands in the list. *)
Theorem ill_typed_operation_has_no_effect (this : SignedOperations) (op : Operation) :
  forallb wf_Action (actions op) = true ->
  isUint256 (expiration op) && isUint256 (salt op) = false ->
  (forall options σ, cancelOperation this op options σ = (Throw EncodingError, σ)) /\
  ethSignOperation this op = (Throw EncodingError, []) /\
  ethSignCancelOperation this op = (Throw EncodingError, []) /\
  (forall before after options σ,
     Forall (fun o => wf_Operation o = true) before ->
     wf_instance this = true ->
     getOperationsAreInvalid this (before ++ op :: after) options σ
     = (Throw EncodingError, σ)).
Proof.
  intros Ha Hr. pose proof (getOperationHash_out_of_range this op Ha Hr) as Hh.
  split; [|split; [|split]].
  - intros options σ. unfold cancelOperation. rewrite Hh. reflexivity.
  - unfold ethSignOperation. rewrite Hh. reflexivity.
  - unfold ethSignCancelOperation. rewrite Hh. reflexivity.
  - intros before after options σ Hb Ht. unfold getOperationsAreInvalid.
    match goal with
    | |- match ?m with _ => _ end = _ =>
        assert (m = Throw EncodingError) as ->; [|reflexivity]
    end.
    induction Hb as [|o before Ho Hb IH]; cbn [app]; rewrite mapM_cons_eq.
    + rewrite Hh. reflexivity.
    + destruct (actions o) as [|act acts] eqn:Hacts.
      * rewrite (getOperationHash_no_actions this o Hacts). reflexivity.
      * rewrite getOperationHash_spec by (assumption || rewrite Hacts; discriminate).
        bind_step. rewrite IH. reflexivity.
Qed.

(** X3: [getAssetAmountHash] returns the digest of the amount when the
    denomination, the reference and the value fit [uint256], and throws
    otherwise; the sign never makes it fail. *)
Theorem getAssetAmountHash_succeeds_iff (this : SignedOperations) (a : AssetAmount) :
  getAssetAmountHash this a
  = if wf_AssetAmount a then Ok (digestHex (spec_hashAssetAmount a))
    else Throw EncodingError.
Proof.
  destruct (wf_AssetAmount a) eqn:E; [apply getAssetAmountHash_spec, E|].
  unfold getAssetAmountHash, soliditySha3. rewrite !mapM_cons_eq.
  unfold hashString. rewrite solidityPack_digest, !solidityPack_uint256_toString.
  assert (isUint256 (if sign a then 1 else 0) = true) as ->
    by (destruct (sign a); reflexivity).
  unfold wf_AssetAmount in E. bind_step.
  destruct (isUint256 (denomination a)); [|reflexivity].
  destruct (isUint256 (ref a)); [|reflexivity].
  destruct (isUint256 (value a)); [discriminate E|reflexivity].
Qed.

Lemma length_concat_blocks (n : nat) (l : list (list byte)) :
  Forall (fun b => length b = n) l -> length (concat l) = (n * length l)%nat.
Proof.
  induction 1 as [|b l Hb Hl IH]; cbn [concat length]; [lia|].
  rewrite length_app, IH, Hb. lia.
Qed.

(** X4: the bytes that [getActionsHash] hands to the hash are 32 for each
    action, and those of a list followed by another are the bytes of the
    first followed by the bytes of the second; with an action in the list
    the result is the hash of these bytes, and null with none. *)
Theorem actionsPreimage_app (this : SignedOperations) (l1 l2 : list Action) :
  forallb wf_Action l1 = true -> forallb wf_Action l2 = true ->
  exists p1 p2 : list byte,
    actionsPreimage this l1 = Ok p1 /\
    actionsPreimage this l2 = Ok p2 /\
    actionsPreimage this (l1 ++ l2) = Ok (p1 ++ p2) /\
    length p1 = (32 * length l1)%nat /\
    (l1 ++ l2 <> [] ->
     getActionsHash this (l1 ++ l2) = Ok (digestHex (keccak256 (p1 ++ p2)))) /\
    (l1 ++ l2 = [] -> getActionsHash this (l1 ++ l2) = Null).
Proof.
  intros H1 H2.
  assert (forallb wf_Action (l1 ++ l2) = true) as H12
    by (rewrite forallb_app, H1, H2; reflexivity).
  exists (concat (map spec_hashAction l1)), (concat (map spec_hashAction l2)).
  split; [apply actionsPreimage_spec, H1|].
  split; [apply actionsPreimage_spec, H2|].
  split; [|split; [|split]].
  - rewrite actionsPreimage_spec by assumption. rewrite map_app, concat_app. reflexivity.
  - rewrite (length_concat_blocks 32) by apply Forall_length_spec_hashAction.
    rewrite length_map. reflexivity.
  - intros Hne. rewrite getActionsHash_spec by assumption.
    unfold spec_hashActions, hash. rewrite map_app, concat_app. reflexivity.
  - intros ->. reflexivity.
Qed.

(** With a first argument that is packed to some bytes, [soliditySha3] is
    the hash of the packed arguments. *)
Lemma sha3_of_packed (first : SolArg) (rest : list SolArg) (bs : list byte) :
  solidityPack first = Ok bs -> (0 < length bs)%nat ->
  soliditySha3 (first :: rest)
  = (packed ← mapM solidityPack (first :: rest);
     mret (digestHex (keccak256 (concat packed)))).
Proof.
  intros H Hl. unfold soliditySha3. rewrite mapM_cons_eq, H. bind_step.
  destruct (mapM solidityPack rest); bind_step; try reflexivity.
  cbn [concat]. destruct bs; [cbn in Hl; lia | reflexivity].
Qed.

Lemma sha3_of_packed_digest (bs : list byte) (rest : list SolArg) :
  soliditySha3 ({| t := "bytes32"; v := v_str (digestHex (keccak256 bs)) |} :: rest)
  = (packed ←
       mapM solidityPack
         ({| t := "bytes32"; v := v_str (digestHex (keccak256 bs)) |} :: rest);
     mret (digestHex (keccak256 (concat packed)))).
Proof.
  apply (sha3_of_packed _ _ (hash bs)); [apply solidityPack_digest|].
  unfold hash. rewrite keccak256_length. lia.
Qed.

Lemma preimage_ok (args : list SolArg) (packed : list (list byte)) :
  mapM solidityPack args = Ok packed ->
  (packed ← mapM solidityPack args; mret (concat packed)) = Ok (concat packed).
Proof. intros H. rewrite H. reflexivity. Qed.

Lemma assetAmountPreimage_spec (this : SignedOperations) (a : AssetAmount) :
  wf_AssetAmount a = true ->
  assetAmountPreimage this a
  = Ok (hash (utf8 EIP712_ASSET_AMOUNT_STRING)
        ++ uint256 (if sign a then 1 else 0)
        ++ uint256 (denomination a) ++ uint256 (ref a) ++ uint256 (value a)).
Proof.
  intros H. unfold wf_AssetAmount in H. split_wf.
  assert (isUint256 (if sign a then 1 else 0) = true) by (destruct (sign a); reflexivity).
  unfold assetAmountPreimage, hashString.
  erewrite preimage_ok by pack_all. cbn [concat]. rewrite app_nil_r. reflexivity.
Qed.

Lemma Ok_inj {A : Type} (a b : A) : Ok a = Ok b -> a = b.
Proof. congruence. Qed.

Lemma length_uint256 (z : Z) : length (uint256 z) = 32%nat.
Proof. apply length_be_bytes. Qed.

Ltac split_block E :=
  apply app_inj_1 in E as [? E];
  [| rewrite ?length_uint256, ?keccak256_length; reflexivity].

(** X5: [getAssetAmountHash] is the hash of the bytes of
    [assetAmountPreimage], and two well-typed amounts with the same bytes
    are the same amount: every field of the amount reaches the hash. *)
Theorem assetAmountPreimage_injective (this : SignedOperations) :
  (forall a : AssetAmount,
     getAssetAmountHash this a
     = (p ← assetAmountPreimage this a; mret (digestHex (keccak256 p)))) /\
  (forall a a' : AssetAmount,
     wf_AssetAmount a = true -> wf_AssetAmount a' = true ->
     assetAmountPreimage this a = assetAmountPreimage this a' -> a = a').
Proof.
  split.
  - intros a. unfold getAssetAmountHash, assetAmountPreimage, hashString.
    rewrite sha3_of_packed_digest.
    destruct (mapM solidityPack _); reflexivity.
  - intros a a' Ha Ha' E.
    rewrite !assetAmountPreimage_spec in E by assumption. apply Ok_inj in E.
    unfold wf_AssetAmount in Ha, Ha'. split_wf.
    apply app_inv_head in E. do 3 split_block E.
    destruct a as [s d r x], a' as [s' d' r' x']. cbn [sign denomination ref value] in *.
    f_equal; try (apply uint256_inj; assumption).
    assert ((if s then 1 else 0) = (if s' then 1 else 0)) as Hs
      by (apply uint256_inj; [destruct s | destruct s' | assumption]; reflexivity).
    destruct s, s'; (reflexivity || discriminate Hs).
Qed.

Lemma basicPreimage_spec (this : SignedOperations) (op : Operation) :
  wf_Operation op = true -> actions op <> [] ->
  basicPreimage this op
  = Ok (hash (utf8 EIP712_OPERATION_STRING)
        ++ spec_hashActions (actions op)
        ++ uint256 (expiration op) ++ uint256 (salt op) ++ padded (sender op)).
Proof.
  intros H Hne. unfold wf_Operation in H. split_wf.
  unfold basicPreimage. rewrite getActionsHash_spec by assumption. bind_step.
  unfold hashString, spec_hashActions, hash.
  erewrite preimage_ok by pack_all. cbn [concat]. rewrite app_nil_r. reflexivity.
Qed.

Lemma digestHex_inj (b b' : list byte) : digestHex b = digestHex b' -> b = b'.
Proof.
  intros E. apply (f_equal bytesOf) in E. rewrite !bytesOf_digestHex in E. exact E.
Qed.

(** X6: the basic hash of [getOperationHash] is the hash of the bytes of
    [basicPreimage]; for well-typed operations with an action these bytes
    are the same exactly when the digests of the actions, the expirations,
    the salts and the bytes of the senders are the same. *)
Theorem basicPreimage_sensitive (this : SignedOperations) :
  (forall op : Operation,
     getOperationHash this op
     = (b ← basicPreimage this op;
        domainHash ← getDomainHash this;
        soliditySha3
          [ {| t := "bytes"; v := v_str "0x1901" |};
            {| t := "bytes32"; v := v_str domainHash |};
            {| t := "bytes32"; v := v_str (digestHex (keccak256 b)) |} ])) /\
  (forall op op' : Operation,
     wf_Operation op = true -> wf_Operation op' = true ->
     actions op <> [] -> actions op' <> [] ->
     (basicPreimage this op = basicPreimage this op' <->
      getActionsHash this (actions op) = getActionsHash this (actions op') /\
      expiration op = expiration op' /\
      salt op = salt op' /\
      bytesOf (sender op) = bytesOf (sender op'))).
Proof.
  split.
  - intros op. unfold getOperationHash, basicPreimage, hashString.
    destruct (getActionsHash this (actions op)) as [ah|e|];
      [|reflexivity|reflexivity].
    bind_step. rewrite sha3_of_packed_digest.
    destruct (mapM solidityPack _); reflexivity.
  - intros op op' Ho Ho' Hne Hne'.
    rewrite !basicPreimage_spec by assumption.
    unfold wf_Operation in Ho, Ho'. split_wf.
    rewrite !getActionsHash_spec by assumption.
    split.
    + intros E. apply Ok_inj in E. apply app_inv_head in E.
      unfold spec_hashActions, hash in E. do 3 split_block E.
      unfold padded in E. apply app_inv_head in E.
      repeat split; try (apply uint256_inj; assumption); [|assumption].
      unfold spec_hashActions, hash. congruence.
    + intros (Ea & Ee & Es & Ed). apply Ok_inj, digestHex_inj in Ea.
      unfold padded. rewrite Ea, Ee, Es, Ed. reflexivity.
Qed.

(** X7: the message handed to the typed-data signer has exactly the fields
    that the type descriptors name, in the order of the descriptors: for the
    operation, for every action and for its asset amount. *)
Theorem message_matches_descriptors :
  (forall op : Operation,
     keys (operationData op) = map name EIP712_OPERATION_STRUCT) /\
  (forall action : Action,
     keys (actionData action) = map name EIP712_ACTION_STRUCT) /\
  (forall action : Action,
     keys <$> get "assetAmount" (actionData action)
     = Some (map name EIP712_ASSET_AMOUNT_STRUCT)).
Proof. repeat split. Qed.

Lemma hexToBytes_app (s u : string) (a : list byte) :
  hexToBytes s = Some a ->
  hexToBytes (s +:+ u) = (fun b => a ++ b) <$> hexToBytes u.
Proof.
  revert s. induction a as [|b a IH]; intros s H.
  - destruct s as [|h [|l rest]]; [|discriminate H|].
    + change ("" +:+ u) with u. destruct (hexToBytes u); reflexivity.
    + cbn [hexToBytes] in H.
      destruct (hexDigitValue h), (hexDigitValue l), (hexToBytes rest); discriminate H.
  - destruct s as [|h [|l rest]]; [discriminate H|discriminate H|].
    cbn [hexToBytes] in H.
    change (hexToBytes (String h (String l rest) +:+ u))
      with (match hexDigitValue h, hexDigitValue l, hexToBytes (rest +:+ u) with
            | Some x, Some y, Some bs => Some (byte_of_Z (16 * x + y) :: bs)
            | _, _, _ => None
            end).
    destruct (hexDigitValue h) as [x|]; [|discriminate H].
    destruct (hexDigitValue l) as [y|]; [|discriminate H].
    destruct (hexToBytes rest) as [bs|] eqn:E; [|discriminate H].
    injection H as Hb Ha. subst bs. rewrite (IH rest E), Hb.
    destruct (hexToBytes u); reflexivity.
Qed.

(** The bytes of the typed signature built from the answer of the provider:
    the bytes of the answer followed by the tag byte. *)
Lemma hexBytes_typed_signature (r : string) (raw : list byte) (c : ascii) (n : Z) :
  hexBytes r = Some raw -> hexDigitValue c = Some n ->
  hexBytes ("0x" +:+ stripHexPrefix r +:+ "0" +:+ String c "")
  = Some (raw ++ [byte_of_Z n]).
Proof.
  intros Hr Hc. unfold hexBytes in *.
  change (stripHexPrefix ("0x" +:+ stripHexPrefix r +:+ "0" +:+ String c ""))
    with (stripHexPrefix r +:+ String "0" (String c "")).
  rewrite (hexToBytes_app _ _ _ Hr). cbn [hexToBytes].
  change (hexDigitValue "0") with (Some 0). rewrite Hc. reflexivity.
Qed.

Lemma ethSignTypedOperationInternal_shape (this : SignedOperations) (op : Operation)
    (rpcMethod : string) (now : Z) (r : string) (raw : list byte) (c : ascii) (n : Z) :
  sendAsync (typedDataRequest this op rpcMethod now)
  = {| error := None; response_result := r |} ->
  hexBytes r = Some raw -> length raw = 65%nat ->
  SIGNATURE_TYPES_NO_PREPEND = String c "" -> hexDigitValue c = Some n ->
  exists s : string,
    ethSignTypedOperationInternal this op rpcMethod now = Ok s /\
    isTypedSignature s = true /\
    rawSignature s = raw /\
    signatureTag s = byte_of_Z n.
Proof.
  intros Hsend Hr Hl Htag Hc.
  exists ("0x" +:+ stripHexPrefix r +:+ "0" +:+ String c "").
  pose proof (hexBytes_typed_signature r raw c n Hr Hc) as Hb.
  split; [|split; [|split]].
  - unfold ethSignTypedOperationInternal. rewrite Hsend, Htag. reflexivity.
  - unfold isTypedSignature, isHexOfLength. rewrite Hb, length_app, Hl. reflexivity.
  - unfold rawSignature, bytesOf. rewrite Hb. cbn [default].
    apply take_app_length'. symmetry. exact Hl.
  - unfold signatureTag, bytesOf. rewrite Hb. cbn [default]. apply last_last.
Qed.

(** X8: when the provider answers with 65 signature bytes, in hex with or
    without the prefix, and the tag is one hex digit, the typed-data signing
    returns a well-formed typed signature: the 65 bytes of the answer
    followed by the tag byte. *)
Theorem typed_signature_format (this : SignedOperations) (op : Operation)
    (rpcMethod : string) (now : Z) (r : string) (raw : list byte) (c : ascii) (n : Z) :
  sendAsync (typedDataRequest this op rpcMethod now)
  = {| error := None; response_result := r |} ->
  hexBytes r = Some raw -> length raw = 65%nat ->
  SIGNATURE_TYPES_NO_PREPEND = String c "" -> hexDigitValue c = Some n ->
  exists s : string,
    ethSignTypedOperationInternal this op rpcMethod now = Ok s /\
    isTypedSignature s = true /\
    rawSignature s = raw /\
    signatureTag s = byte_of_Z n.
Proof.
  apply ethSignTypedOperationInternal_shape.
Qed.

(** X9: signing through the typed-data provider and verifying compose, for
    a well-typed operation with at least one action: when the provider
    answers with 65 signature bytes from which the recovery of the tag
    yields an address for the digest of the operation, the typed signature
    returned verifies exactly when that address is the signer of the
    operation, case apart. *)
Theorem typed_sign_then_verify (this : SignedOperations) (op : Operation)
    (rpcMethod : string) (now : Z) (r : string) (raw : list byte) (c : ascii) (n : Z)
    (recover : list byte -> list byte -> option string) (a : string) :
  wf_instance this = true -> wf_Operation op = true -> actions op <> [] ->
  sendAsync (typedDataRequest this op rpcMethod now)
  = {| error := None; response_result := r |} ->
  hexBytes r = Some raw -> length raw = 65%nat ->
  SIGNATURE_TYPES_NO_PREPEND = String c "" -> hexDigitValue c = Some n ->
  recoveryFor (byte_of_Z n) = Some recover ->
  recover (spec_hashOperation this op) raw = Some a ->
  exists s : string,
    ethSignTypedOperationInternal this op rpcMethod now = Ok s /\
    operationHasValidSignature this {| operation := op; typedSignature := s |}
    = Ok (addressesAreEqual a (signer op)).
Proof.
  intros Ht Ho Hne Hsend Hr Hl Htag Hc Hrec Ha.
  destruct (ethSignTypedOperationInternal_shape this op rpcMethod now r raw c n
              Hsend Hr Hl Htag Hc) as (s & Hs & Hwf & Hraw & Hsig).
  exists s. split; [exact Hs|].
  unfold operationHasValidSignature, operationByHashHasValidSignature.
  cbn [operation typedSignature].
  rewrite getOperationHash_spec by assumption. bind_step.
  unfold ecRecoverTypedSignature.
  rewrite Hwf, Hsig, Hrec, Hraw, bytesOf_digestHex, Ha. reflexivity.
Qed.

(** X10: for well-typed operations with at least one action each,
    [getOperationsAreInvalid] makes one constant call, with one query entry
    for each operation, in order: the digest of the operation and its
    signer; the options and the store are handed over as they are. *)
Theorem getOperationsAreInvalid_query (this : SignedOperations)
    (ops : list Operation) (options : option loc) (σ : store) :
  wf_instance this = true ->
  Forall (fun op => wf_Operation op = true /\ actions op <> []) ops ->
  exists inputQuery : list OperationQuery,
    getOperationsAreInvalid this ops options σ
    = callConstantContractFunction (getOperationsAreInvalidQuery inputQuery) options σ /\
    Forall2 (fun op entry =>
               getOperationHash this op = Ok (operationHash entry) /\
               operationSigner entry = signer op) ops inputQuery.
Proof.
  intros Ht Hops.
  exists (map (fun op => {| operationHash := digestHex (spec_hashOperation this op);
                            operationSigner := signer op |}) ops).
  split.
  - unfold getOperationsAreInvalid.
    match goal with
    | |- match ?m with _ => _ end = _ =>
        assert (m = Ok (map (fun op =>
                               {| operationHash := digestHex (spec_hashOperation this op);
                                  operationSigner := signer op |}) ops)) as ->;
          [|reflexivity]
    end.
    induction Hops as [|op ops [Hop Hne] Hops IH]; [reflexivity|].
    cbn [map]. apply mapM_ok_cons; [|exact IH].
    rewrite getOperationHash_spec by assumption. reflexivity.
  - induction Hops as [|op ops [Hop Hne] Hops IH]; cbn [map]; constructor; [|exact IH].
    split; [apply getOperationHash_spec; assumption | reflexivity].
Qed.

(** X11: the verdict of [operationHasValidSignature] is the same for two
    operations that agree on the actions, the expiration, the salt and the
    sender and whose signers are the same address, case and prefix apart. *)
Theorem verification_blind_to_signer_case (this : SignedOperations)
    (op op' : Operation) (typedSig : string) :
  actions op = actions op' -> expiration op = expiration op' ->
  salt op = salt op' -> sender op = sender op' ->
  addressesAreEqual (signer op) (signer op') = true ->
  operationHasValidSignature this {| operation := op; typedSignature := typedSig |}
  = operationHasValidSignature this {| operation := op'; typedSignature := typedSig |}
  /\
  cancelOperationHasValidSignature this op typedSig
  = cancelOperationHasValidSignature this op' typedSig.
Proof.
  intros Ha He Hs Hd Hsig.
  assert (getOperationHash this op = getOperationHash this op') as Hh
    by (unfold getOperationHash; rewrite Ha, He, Hs, Hd; reflexivity).
  assert (forall a, addressesAreEqual a (signer op) = addressesAreEqual a (signer op'))
    as Heq.
  { intros a. unfold addressesAreEqual in *. apply String.eqb_eq in Hsig.
    rewrite Hsig. reflexivity. }
  unfold operationHasValidSignature, cancelOperationHasValidSignature,
    cancelOperationByHashHasValidSignature, operationByHashHasValidSignature.
  cbn [operation typedSignature]. rewrite Hh.
  split.
  - destruct (getOperationHash this op') as [h|e|]; [|reflexivity|reflexivity].
    bind_step.
    destruct (ecRecoverTypedSignature h typedSig) as [a|e|];
      [|reflexivity|reflexivity].
    bind_step. rewrite Heq. reflexivity.
  - destruct (getOperationHash this op') as [h|e|]; [|reflexivity|reflexivity].
    bind_step.
    destruct (operationHashToCancelOperationHash this h) as [c|e|];
      [|reflexivity|reflexivity].
    bind_step.
    destruct (ecRecoverTypedSignature c typedSig) as [a|e|];
      [|reflexivity|reflexivity].
    bind_step. rewrite Heq. reflexivity.
Qed.

(** X12: for a well-typed operation with at least one action each
    digest-signing function makes exactly one request, to the signer of the
    operation: [ethSignOperation]
    for the digest of the operation, [ethSignCancelOperation] for its cancel
    digest; the answer is tagged as a decimal signature and an error of the
    signer is passed on. *)
Theorem digest_signing_requests (this : SignedOperations) (op : Operation) :
  wf_instance this = true -> wf_Operation op = true -> actions op <> [] ->
  exists h c : string,
    getOperationHash this op = Ok h /\
    operationHashToCancelOperationHash this h = Ok c /\
    ethSignOperation this op
    = (signature ← eth_sign h (signer op);
       createTypedSignature signature SIGNATURE_TYPES_DECIMAL,
       [EthSign h (signer op)]) /\
    ethSignCancelOperation this op
    = (signature ← eth_sign c (signer op);
       createTypedSignature signature SIGNATURE_TYPES_DECIMAL,
       [EthSign c (signer op)]) /\
    ethSignCancelOperation this op
    = ethSignCancelOperationByHash this h (signer op) /\
    (forall e, eth_sign h (signer op) = Throw e ->
       fst (ethSignOperation this op) = Throw e).
Proof.
  intros Ht Ho Hne.
  pose proof (getOperationHash_spec this op Ht Ho Hne) as Hh.
  pose proof (operationHashToCancelOperationHash_spec this _
                (isDigest_hash _ : isDigest (digestHex (spec_hashOperation this op)) = true))
    as Hc.
  eexists _, _. split; [exact Hh|]. split; [exact Hc|].
  unfold ethSignOperation, ethSignCancelOperation, ethSignCancelOperationByHash.
  rewrite Hh, Hc.
  split; [reflexivity|]. split; [reflexivity|]. split; [reflexivity|].
  intros e He. cbn [fst]. rewrite He. reflexivity.
Qed.

Lemma domainPreimage_spec (this : SignedOperations) :
  wf_instance this = true ->
  domainPreimage this
  = Ok (hash (utf8 EIP712_DOMAIN_STRING)
        ++ hash (utf8 "SignedOperationProxy")
        ++ hash (utf8 "1.0")
        ++ uint256 (networkId this)
        ++ padded (options_address (signedOperationProxy (contracts this)))).
Proof.
  intros H. unfold wf_instance in H. split_wf.
  unfold domainPreimage, hashString.
  erewrite preimage_ok by pack_all. cbn [concat]. rewrite app_nil_r. reflexivity.
Qed.

(** X13: [getDomainHash] is the hash of the bytes of [domainPreimage]; for
    well-formed instances these bytes are the same exactly when the network
    ids and the bytes of the contract addresses are the same. *)
Theorem domainPreimage_sensitive :
  (forall this : SignedOperations,
     getDomainHash this
     = (p ← domainPreimage this; mret (digestHex (keccak256 p)))) /\
  (forall this this' : SignedOperations,
     wf_instance this = true -> wf_instance this' = true ->
     (domainPreimage this = domainPreimage this' <->
      networkId this = networkId this' /\
      bytesOf (options_address (signedOperationProxy (contracts this)))
      = bytesOf (options_address (signedOperationProxy (contracts this'))))).
Proof.
  split.
  - intros this. unfold getDomainHash, domainPreimage, hashString.
    rewrite sha3_of_packed_digest.
    destruct (mapM solidityPack _); reflexivity.
  - intros this this' Ht Ht'.
    rewrite !domainPreimage_spec by assumption.
    unfold wf_instance in Ht, Ht'. split_wf.
    split.
    + intros E. apply Ok_inj in E. unfold hash in E.
      do 3 apply app_inv_head in E. split_block E.
      unfold padded in E. apply app_inv_head in E.
      split; [|exact E].
      apply uint256_inj; [apply isSafeNumber_isUint256.. |]; assumption.
    + intros (En & Ea). unfold padded. rewrite En, Ea. reflexivity.
Qed.

Lemma actionPreimage_spec (this : SignedOperations) (act : Action) :
  wf_Action act = true ->
  actionPreimage this act
  = Ok (hash (utf8 EIP712_ACTION_STRING)
        ++ uint256 (actionType act)
        ++ padded (primaryAccountOwner act)
        ++ uint256 (primaryAccountNumber act)
        ++ spec_hashAssetAmount (amount act)
        ++ uint256 (primaryMarketId act)
        ++ uint256 (secondaryMarketId act)
        ++ padded (otherAddress act)
        ++ padded (secondaryAccountOwner act)
        ++ uint256 (secondaryAccountNumber act)
        ++ hash (bytesOf (data act))).
Proof.
  intros H. unfold wf_Action in H. split_wf.
  unfold actionPreimage.
  rewrite getAssetAmountHash_spec by assumption.
  rewrite hashBytes_spec by assumption. bind_step.
  unfold spec_hashAssetAmount, hashString, hash.
  erewrite preimage_ok by pack_all. cbn [concat]. rewrite app_nil_r. reflexivity.
Qed.

Lemma length_padded (a : string) : isAddress a = true -> length (padded a) = 32%nat.
Proof.
  intros H. apply isHexOfLength_inv in H as [_ Hl].
  unfold padded. rewrite length_app, Hl. reflexivity.
Qed.

Lemma padded_inj (a a' : string) : padded a = padded a' -> bytesOf a = bytesOf a'.
Proof. unfold padded. apply app_inv_head. Qed.

(** X14: [getActionHash] is the hash of the bytes of [actionPreimage]; two
    well-typed actions with the same bytes have the same action type,
    account numbers and market ids, the same address bytes, and the same
    digests of the amount and of the data. *)
Theorem actionPreimage_sensitive (this : SignedOperations) :
  (forall act : Action,
     getActionHash this act
     = (p ← actionPreimage this act; mret (digestHex (keccak256 p)))) /\
  (forall act act' : Action,
     wf_Action act = true -> wf_Action act' = true ->
     actionPreimage this act = actionPreimage this act' ->
     actionType act = actionType act' /\
     bytesOf (primaryAccountOwner act) = bytesOf (primaryAccountOwner act') /\
     primaryAccountNumber act = primaryAccountNumber act' /\
     getAssetAmountHash this (amount act) = getAssetAmountHash this (amount act') /\
     primaryMarketId act = primaryMarketId act' /\
     secondaryMarketId act = secondaryMarketId act' /\
     bytesOf (otherAddress act) = bytesOf (otherAddress act') /\
     bytesOf (secondaryAccountOwner act) = bytesOf (secondaryAccountOwner act') /\
     secondaryAccountNumber act = secondaryAccountNumber act' /\
     hashBytes (data act) = hashBytes (data act')).
Proof.
  split.
  - intros act. unfold getActionHash, actionPreimage, hashString.
    destruct (getAssetAmountHash this (amount act)); [|reflexivity|reflexivity].
    bind_step.
    destruct (hashBytes (data act)); [|reflexivity|reflexivity]. bind_step.
    rewrite sha3_of_packed_digest.
    destruct (mapM solidityPack _); reflexivity.
  - intros act act' Ha Ha' E.
    rewrite !actionPreimage_spec in E by assumption. apply Ok_inj in E.
    unfold wf_Action in Ha, Ha'. split_wf.
    rewrite !getAssetAmountHash_spec, !hashBytes_spec by assumption.
    apply app_inv_head in E.
    unfold spec_hashAssetAmount, hash in E.
    do 9 (apply app_inj_1 in E as [? E];
          [| rewrite ?length_uint256, ?keccak256_length, ?length_padded by assumption;
             reflexivity]).
    unfold spec_hashAssetAmount, hash.
    repeat split;
      try (apply uint256_inj; assumption);
      try (apply padded_inj; assumption);
      congruence.
Qed.

End SignedOperations.

(** ** The theorems at the sample values *)

Lemma toy_keccak_length (bs : list byte) : length (toy_keccak bs) = 32%nat.
Proof. apply length_be_bytes. Qed.

Example toString_example : toString 1700000000 = "1700000000"%string.
Proof. reflexivity. Qed.

Example hexBytes_ignores_case :
  hexBytes sampleAddressMixed = hexBytes sampleAddress
  /\ sampleAddressMixed <> sampleAddress.
Proof. split; [reflexivity | discriminate]. Qed.

Example getOperationHash_emptyOperation :
  getActionsHash toy_keccak sampleInstance (actions emptyOperation) = Null /\
  getOperationHash toy_keccak toy_DOMAIN_STRING sampleInstance emptyOperation
  = Throw EncodingError.
Proof. split; reflexivity. Qed.

Lemma sampleOperation_digest :
  getOperationHash toy_keccak toy_DOMAIN_STRING sampleInstance sampleOperation
  = Ok sampleOperationDigest.
Proof. vm_compute. reflexivity. Qed.

Lemma sampleOperationOtherSigner_digest :
  getOperationHash toy_keccak toy_DOMAIN_STRING sampleInstance sampleOperationOtherSigner
  = Ok sampleOperationDigest.
Proof. vm_compute. reflexivity. Qed.

Lemma sampleOperation_cancel_digest :
  operationHashToCancelOperationHash toy_keccak sampleInstance sampleOperationDigest
  = Ok sampleCancelDigest.
Proof. vm_compute. reflexivity. Qed.

Lemma getOperationHash_composition_witness :
  wf_instance sampleInstance = true /\
  wf_Operation emptyOperation = true /\ wf_Operation sampleOperation = true /\
  (getActionsHash toy_keccak sampleInstance (actions emptyOperation) = Null /\
   getOperationHash toy_keccak toy_DOMAIN_STRING sampleInstance emptyOperation
   = Throw EncodingError) /\
  exists domainHash actionsHash : string,
    getDomainHash toy_keccak toy_DOMAIN_STRING sampleInstance = Ok domainHash /\
    getActionsHash toy_keccak sampleInstance (actions sampleOperation) = Ok actionsHash /\
    let basicHash :=
      hash toy_keccak
        (bytesOf (hashString toy_keccak EIP712_OPERATION_STRING)
         ++ bytesOf actionsHash
         ++ be_bytes 32 (expiration sampleOperation)
         ++ be_bytes 32 (salt sampleOperation)
         ++ (zeros 12 ++ bytesOf (sender sampleOperation))) in
    getOperationHash toy_keccak toy_DOMAIN_STRING sampleInstance sampleOperation
    = Ok (digestHex (hash toy_keccak ([x19; x01] ++ bytesOf domainHash ++ basicHash))).
Proof.
  split; [reflexivity|]. split; [reflexivity|]. split; [reflexivity|].
  split.
  - exact (proj1 (getOperationHash_composition toy_keccak toy_keccak_length
                    toy_DOMAIN_STRING sampleInstance emptyOperation eq_refl eq_refl)
             eq_refl).
  - apply (proj2 (getOperationHash_composition toy_keccak toy_keccak_length
                    toy_DOMAIN_STRING sampleInstance sampleOperation eq_refl eq_refl)).
    discriminate.
Defined.

Lemma hashing_functions_total_witness :
  wf_instance sampleInstance = true /\
  getActionsHash toy_keccak sampleInstance [] = Null /\
  getOperationHash toy_keccak toy_DOMAIN_STRING sampleInstance emptyOperation
  = Throw EncodingError /\
  (exists d, getOperationHash toy_keccak toy_DOMAIN_STRING sampleInstance sampleOperation
             = Ok d /\ isDigest d = true) /\
  (exists d, getActionHash toy_keccak sampleInstance sampleAction = Ok d
             /\ isDigest d = true) /\
  (exists d, operationHashToCancelOperationHash toy_keccak sampleInstance sampleDigest
             = Ok d /\ isDigest d = true).
Proof.
  destruct (hashing_functions_total toy_keccak toy_keccak_length toy_DOMAIN_STRING
              sampleInstance eq_refl)
    as (Hnil & Hempty & _ & Hact & _ & Hop & Hcancel).
  split; [reflexivity|].
  split; [exact Hnil|]. split; [exact Hempty|].
  split; [apply Hop; [reflexivity | discriminate]|].
  split; [apply Hact; reflexivity | apply Hcancel; reflexivity].
Defined.

Lemma getOperationHash_ignores_signer_witness :
  signer sampleOperation <> signer sampleOperationOtherSigner /\
  getOperationHash toy_keccak toy_DOMAIN_STRING sampleInstance sampleOperation
  = getOperationHash toy_keccak toy_DOMAIN_STRING sampleInstance
      sampleOperationOtherSigner.
Proof.
  split; [discriminate|].
  apply (getOperationHash_ignores_signer toy_keccak toy_DOMAIN_STRING sampleInstance
           sampleOperation sampleOperationOtherSigner); reflexivity.
Defined.

Lemma getDomainHash_composition_witness :
  wf_instance sampleInstance = true /\
  wf_instance sampleInstanceOtherNetwork = true /\
  getDomainHash toy_keccak toy_DOMAIN_STRING sampleInstance
  = Ok (digestHex
          (hash toy_keccak
             (bytesOf (hashString toy_keccak toy_DOMAIN_STRING)
              ++ bytesOf (hashString toy_keccak "SignedOperationProxy")
              ++ bytesOf (hashString toy_keccak "1.0")
              ++ be_bytes 32 1
              ++ (zeros 12 ++ bytesOf sampleAddress)))) /\
  last (session toy_keccak toy_DOMAIN_STRING sampleInstance
          ([AskDomainHash] ++ [Configure sampleInstanceOtherNetwork; AskDomainHash]))
  = Some (Ok (digestHex
                (hash toy_keccak
                   (bytesOf (hashString toy_keccak toy_DOMAIN_STRING)
                    ++ bytesOf (hashString toy_keccak "SignedOperationProxy")
                    ++ bytesOf (hashString toy_keccak "1.0")
                    ++ be_bytes 32 42
                    ++ (zeros 12 ++ bytesOf sampleAddress))))).
Proof.
  split; [reflexivity|]. split; [reflexivity|].
  split.
  - apply (proj1 (getDomainHash_composition toy_keccak toy_keccak_length
                    toy_DOMAIN_STRING) sampleInstance); reflexivity.
  - apply (proj2 (proj2 (getDomainHash_composition toy_keccak toy_keccak_length
                           toy_DOMAIN_STRING))
             sampleInstance sampleInstanceOtherNetwork [AskDomainHash]); reflexivity.
Defined.

Lemma cancelHash_composition_witness :
  isDigest sampleDigest = true /\
  operationHashToCancelOperationHash toy_keccak sampleInstance sampleDigest
  = Ok (digestHex (hash toy_keccak (utf8 "cancel" ++ bytesOf sampleDigest))).
Proof.
  split; [reflexivity|].
  apply (cancelHash_composition toy_keccak sampleInstance sampleDigest); reflexivity.
Defined.

Lemma getActionsHash_in_order_witness :
  Permutation [sampleAction; sampleActionTwo] [sampleActionTwo; sampleAction] /\
  (exists hs : list string,
     mapM (getActionHash toy_keccak sampleInstance) [sampleAction; sampleActionTwo]
     = Ok hs /\
     getActionsHash toy_keccak sampleInstance [sampleAction; sampleActionTwo]
     = Ok (digestHex (hash toy_keccak (concat (map bytesOf hs))))) /\
  actionsPreimage toy_keccak sampleInstance [sampleAction; sampleActionTwo]
  <> actionsPreimage toy_keccak sampleInstance [sampleActionTwo; sampleAction] /\
  actionsPreimage toy_keccak sampleInstance [sampleAction; sampleActionMixed]
  = actionsPreimage toy_keccak sampleInstance [sampleActionMixed; sampleAction].
Proof.
  split; [apply perm_swap|].
  split; [|split].
  - destruct (proj1 (getActionsHash_in_order toy_keccak toy_keccak_length sampleInstance)
                [sampleAction; sampleActionTwo] ltac:(discriminate) eq_refl)
      as (hs & Hhs & _ & Hh).
    exists hs. split; [exact Hhs | exact Hh].
  - apply (proj1 (proj2 (getActionsHash_in_order toy_keccak toy_keccak_length
                           sampleInstance))).
    + reflexivity.
    + apply perm_swap.
    + intros a b [<-|[<-|[]]] [<-|[<-|[]]] E;
        try (repeat split; reflexivity);
        vm_compute in E; discriminate E.
    + intros H. inversion H as [|? ? ? ? [Ht _] _]. discriminate Ht.
  - apply (proj2 (proj2 (getActionsHash_in_order toy_keccak toy_keccak_length
                           sampleInstance))).
    + reflexivity.
    + reflexivity.
    + repeat constructor.
Defined.

(** Reordering alone does not change the hashed bytes: two lists of
    well-typed actions that are permutations of each other, and differ only
    in the case of the hex digits of an address, are packed to the same
    bytes. *)
Lemma reordered_actions_same_preimage :
  ~ (forall (keccak256 : list byte -> list byte) (this : SignedOperations)
            (l1 l2 : list Action),
       (forall bs, length (keccak256 bs) = 32%nat) ->
       forallb wf_Action l1 = true -> forallb wf_Action l2 = true ->
       Permutation l1 l2 -> l1 <> l2 ->
       actionsPreimage keccak256 this l1 <> actionsPreimage keccak256 this l2).
Proof.
  intros H.
  apply (H toy_keccak sampleInstance
           [sampleAction; sampleActionMixed] [sampleActionMixed; sampleAction]
           toy_keccak_length).
  - reflexivity.
  - reflexivity.
  - apply perm_swap.
  - discriminate.
  - apply actionsPreimage_blind_to_case, toy_keccak_length.
Qed.

Lemma signature_predicates_witness :
  getOperationHash toy_keccak toy_DOMAIN_STRING sampleInstance sampleOperation
  = Ok sampleOperationDigest /\
  operationHasValidSignature toy_keccak toy_DOMAIN_STRING toy_recoveryFor sampleInstance
    {| operation := sampleOperation; typedSignature := sampleTypedSignature |}
  = Ok true /\
  operationHasValidSignature toy_keccak toy_DOMAIN_STRING toy_recoveryFor sampleInstance
    {| operation := sampleOperationOtherSigner; typedSignature := sampleTypedSignature |}
  = Ok false /\
  cancelOperationHasValidSignature toy_keccak toy_DOMAIN_STRING toy_recoveryFor
    sampleInstance sampleOperation sampleCancelTypedSignature
  = Ok true /\
  cancelOperationHasValidSignature toy_keccak toy_DOMAIN_STRING toy_recoveryFor
    sampleInstance sampleOperation malformedSignature
  = Throw InvalidSignature /\
  operationHasValidSignature toy_keccak toy_DOMAIN_STRING toy_recoveryFor sampleInstance
    {| operation := sampleOperation; typedSignature := unprefixedSignature |}
  = Throw InvalidSignature /\
  cancelOperationHasValidSignature toy_keccak toy_DOMAIN_STRING toy_recoveryFor
    sampleInstance sampleOperation unknownTagSignature
  = Throw UnsupportedSignatureType.
Proof.
  split; [exact sampleOperation_digest|].
  destruct (signature_predicates toy_keccak toy_keccak_length toy_DOMAIN_STRING
              toy_recoveryFor sampleInstance sampleOperation sampleTypedSignature
              sampleOperationDigest sampleOperation_digest)
    as (c & _ & Hok & _).
  destruct (signature_predicates toy_keccak toy_keccak_length toy_DOMAIN_STRING
              toy_recoveryFor sampleInstance sampleOperationOtherSigner
              sampleTypedSignature sampleOperationDigest
              sampleOperationOtherSigner_digest)
    as (c' & _ & _ & Hno & _).
  destruct (signature_predicates toy_keccak toy_keccak_length toy_DOMAIN_STRING
              toy_recoveryFor sampleInstance sampleOperation sampleCancelTypedSignature
              sampleOperationDigest sampleOperation_digest)
    as (c2 & Hc2 & _ & _ & _ & Hcancel & _).
  destruct (signature_predicates toy_keccak toy_keccak_length toy_DOMAIN_STRING
              toy_recoveryFor sampleInstance sampleOperation malformedSignature
              sampleOperationDigest sampleOperation_digest)
    as (c0 & _ & _ & _ & _ & _ & _ & _ & Hbad & _).
  destruct (signature_predicates toy_keccak toy_keccak_length toy_DOMAIN_STRING
              toy_recoveryFor sampleInstance sampleOperation unprefixedSignature
              sampleOperationDigest sampleOperation_digest)
    as (c3 & _ & _ & _ & _ & _ & _ & _ & Hbare & _).
  destruct (signature_predicates toy_keccak toy_keccak_length toy_DOMAIN_STRING
              toy_recoveryFor sampleInstance sampleOperation unknownTagSignature
              sampleOperationDigest sampleOperation_digest)
    as (c1 & _ & _ & _ & _ & _ & _ & _ & _ & Htag).
  split; [exact (Hok sampleAddress eq_refl)|].
  split; [apply (Hno sampleAddress eq_refl); discriminate|].
  split.
  { rewrite sampleOperation_cancel_digest in Hc2. apply Ok_inj in Hc2. subst c2.
    exact (Hcancel sampleAddress eq_refl). }
  split; [exact (proj2 (Hbad eq_refl))|].
  split; [exact (proj1 (Hbare eq_refl))|].
  exact (proj2 (Htag eq_refl eq_refl)).
Defined.

(** An address written in mixed case reaches the payload as it is, not in
    lower case. *)
Lemma typedData_keeps_address_case :
  ~ (forall (toStringOfString : string -> string) (action : Action),
       wf_Action action = true ->
       get "accountOwner" (actionData toStringOfString action)
       = Some (JString (toLowerCase (primaryAccountOwner action)))).
Proof.
  intros H. specialize (H (fun s => s) sampleActionMixed eq_refl).
  vm_compute in H. discriminate H.
Qed.

Lemma cancelOperation_overwrites_from_witness :
  getOperationHash toy_keccak toy_DOMAIN_STRING sampleInstance sampleOperation
  = Ok sampleOperationDigest /\
  sampleStore !! 1%positive = Some sampleOptions /\
  sampleOptions !! "from"%string = Some (JString sampleAddress) /\
  exists (o' : object) (σ' : store),
    cancelOperation toy_keccak toy_DOMAIN_STRING toy_dispatch sampleInstance
      sampleOperation (Some 1%positive) sampleStore
    = toy_dispatch (cancel sampleOperationDigest) (Some 1%positive) σ' /\
    σ' !! 1%positive = Some o' /\
    o' !! "from"%string = Some (JString sampleAddressMixed) /\
    o' !! "gas"%string = Some (JNumber 4000000).
Proof.
  split; [exact sampleOperation_digest|]. split; [reflexivity|]. split; [reflexivity|].
  destruct (cancelOperation_overwrites_from toy_keccak toy_DOMAIN_STRING toy_dispatch
              sampleInstance sampleOperation 1%positive sampleStore
              sampleOptions sampleOperationDigest sampleOperation_digest eq_refl)
    as (o' & σ' & Hc & Hl & Hf & Hk & _).
  exists o', σ'.
  split; [exact Hc|]. split; [exact Hl|]. split; [exact Hf|].
  rewrite Hk by discriminate. reflexivity.
Defined.

(** ** The further properties at the sample values *)

Lemma cancelOperation_without_options_witness :
  getOperationHash toy_keccak toy_DOMAIN_STRING sampleInstance sampleOperation
  = Ok sampleOperationDigest /\
  exists l : loc,
    cancelOperation toy_keccak toy_DOMAIN_STRING toy_dispatch sampleInstance
      sampleOperation None sampleStore
    = toy_dispatch (cancel sampleOperationDigest) (Some l)
        (<[l := {["from" := JString sampleAddressMixed]}]> sampleStore) /\
    sampleStore !! l = None.
Proof.
  split; [exact sampleOperation_digest|].
  destruct (cancelOperation_without_options toy_keccak toy_DOMAIN_STRING toy_dispatch
              sampleInstance sampleOperation sampleStore sampleOperationDigest
              sampleOperation_digest)
    as (l & Hc & Hl & _).
  exists l. split; [exact Hc | exact Hl].
Defined.

Lemma ill_typed_operation_has_no_effect_witness :
  forallb wf_Action (actions illTypedOperation) = true /\
  isUint256 (expiration illTypedOperation) && isUint256 (salt illTypedOperation) = false /\
  cancelOperation toy_keccak toy_DOMAIN_STRING toy_dispatch sampleInstance
    illTypedOperation (Some 1%positive) sampleStore
  = (Throw EncodingError, sampleStore) /\
  ethSignOperation toy_keccak toy_DOMAIN_STRING toy_eth_sign toy_createTypedSignature 1
    sampleInstance illTypedOperation
  = (Throw EncodingError, []) /\
  getOperationsAreInvalid toy_keccak toy_DOMAIN_STRING toy_constantDispatch sampleInstance
    [sampleOperationOtherSigner; illTypedOperation; sampleOperation] None sampleStore
  = (Throw EncodingError, sampleStore).
Proof.
  split; [reflexivity|]. split; [reflexivity|].
  destruct (ill_typed_operation_has_no_effect toy_keccak toy_keccak_length
              toy_DOMAIN_STRING toy_dispatch toy_constantDispatch toy_eth_sign
              toy_createTypedSignature 1 sampleInstance illTypedOperation
              eq_refl eq_refl)
    as (Hcancel & Hsign & _ & Hquery).
  split; [apply Hcancel|]. split; [exact Hsign|].
  apply (Hquery [sampleOperationOtherSigner] [sampleOperation] None sampleStore);
    [repeat constructor | reflexivity].
Defined.

Lemma getAssetAmountHash_succeeds_iff_witness :
  wf_AssetAmount illTypedAmount = false /\
  getAssetAmountHash toy_keccak sampleInstance illTypedAmount = Throw EncodingError /\
  getAssetAmountHash toy_keccak sampleInstance sampleAmount
  = Ok (digestHex (spec_hashAssetAmount toy_keccak sampleAmount)).
Proof.
  split; [reflexivity|].
  split.
  - exact (getAssetAmountHash_succeeds_iff toy_keccak toy_keccak_length sampleInstance
             illTypedAmount).
  - exact (getAssetAmountHash_succeeds_iff toy_keccak toy_keccak_length sampleInstance
             sampleAmount).
Defined.

Lemma actionsPreimage_app_witness :
  exists p1 p2 : list byte,
    actionsPreimage toy_keccak sampleInstance [sampleAction] = Ok p1 /\
    actionsPreimage toy_keccak sampleInstance [sampleActionTwo] = Ok p2 /\
    actionsPreimage toy_keccak sampleInstance [sampleAction; sampleActionTwo]
    = Ok (p1 ++ p2) /\
    length p1 = 32%nat /\
    getActionsHash toy_keccak sampleInstance [sampleAction; sampleActionTwo]
    = Ok (digestHex (toy_keccak (p1 ++ p2))).
Proof.
  destruct (actionsPreimage_app toy_keccak toy_keccak_length sampleInstance
              [sampleAction] [sampleActionTwo] eq_refl eq_refl)
    as (p1 & p2 & H1 & H2 & H12 & Hl & Hh & _).
  exists p1, p2. split; [exact H1|]. split; [exact H2|]. split; [exact H12|].
  split; [exact Hl|]. apply Hh. discriminate.
Defined.

Lemma assetAmountPreimage_injective_witness :
  wf_AssetAmount sampleAmount = true /\ wf_AssetAmount sampleAmountNegative = true /\
  assetAmountPreimage toy_keccak sampleInstance sampleAmount
  <> assetAmountPreimage toy_keccak sampleInstance sampleAmountNegative.
Proof.
  split; [reflexivity|]. split; [reflexivity|].
  intros E.
  apply (proj2 (assetAmountPreimage_injective toy_keccak toy_keccak_length sampleInstance)
           sampleAmount sampleAmountNegative eq_refl eq_refl) in E.
  discriminate E.
Defined.

Lemma basicPreimage_sensitive_witness :
  wf_Operation sampleOperation = true /\ wf_Operation sampleOperationOtherSalt = true /\
  basicPreimage toy_keccak sampleInstance sampleOperation
  = basicPreimage toy_keccak sampleInstance sampleOperationOtherSigner /\
  basicPreimage toy_keccak sampleInstance sampleOperation
  <> basicPreimage toy_keccak sampleInstance sampleOperationOtherSalt.
Proof.
  split; [reflexivity|]. split; [reflexivity|].
  pose proof (proj2 (basicPreimage_sensitive toy_keccak toy_keccak_length
                       toy_DOMAIN_STRING sampleInstance)) as H.
  split.
  - apply (H sampleOperation sampleOperationOtherSigner eq_refl eq_refl
             ltac:(discriminate) ltac:(discriminate)).
    repeat split; reflexivity.
  - intros E.
    apply (H sampleOperation sampleOperationOtherSalt eq_refl eq_refl
             ltac:(discriminate) ltac:(discriminate)) in E as (_ & _ & Hs & _).
    discriminate Hs.
Defined.

Lemma typed_signature_format_witness :
  hexBytes sampleRawSignature = Some (bytesOf sampleRawSignature) /\
  length (bytesOf sampleRawSignature) = 65%nat /\
  exists s : string,
    ethSignTypedOperationInternal [] "0" (fun x => x) toy_sendAsync sampleInstance
      sampleOperation "eth_signTypedData" 0 = Ok s /\
    isTypedSignature s = true /\
    rawSignature s = bytesOf sampleRawSignature /\
    signatureTag s = x00.
Proof.
  split; [reflexivity|]. split; [reflexivity|].
  apply (typed_signature_format [] "0" (fun x => x) toy_sendAsync sampleInstance
           sampleOperation "eth_signTypedData" 0 sampleRawSignature
           (bytesOf sampleRawSignature) "0"%char 0);
    reflexivity.
Defined.

Lemma toy_recover_sampleOperation :
  toy_recover (spec_hashOperation toy_keccak toy_DOMAIN_STRING sampleInstance sampleOperation)
    (bytesOf sampleRawSignature)
  = Some sampleAddress.
Proof. vm_compute. reflexivity. Qed.

Lemma typed_sign_then_verify_witness :
  wf_instance sampleInstance = true /\ wf_Operation sampleOperation = true /\
  actions sampleOperation <> [] /\
  exists s : string,
    ethSignTypedOperationInternal [] "0" (fun x => x) toy_sendAsync sampleInstance
      sampleOperation "eth_signTypedData_v3" 0 = Ok s /\
    operationHasValidSignature toy_keccak toy_DOMAIN_STRING toy_recoveryFor sampleInstance
      {| operation := sampleOperation; typedSignature := s |}
    = Ok true.
Proof.
  split; [reflexivity|]. split; [reflexivity|]. split; [discriminate|].
  destruct (typed_sign_then_verify toy_keccak toy_keccak_length toy_DOMAIN_STRING
              toy_recoveryFor [] "0" (fun x => x) toy_sendAsync sampleInstance
              sampleOperation "eth_signTypedData_v3" 0 sampleRawSignature
              (bytesOf sampleRawSignature) "0"%char 0 toy_recover sampleAddress
              eq_refl eq_refl ltac:(discriminate) eq_refl eq_refl eq_refl eq_refl
              eq_refl eq_refl toy_recover_sampleOperation)
    as (s & Hs & Hv).
  exists s. split; [exact Hs | exact Hv].
Defined.

Lemma getOperationsAreInvalid_query_witness :
  exists inputQuery : list OperationQuery,
    getOperationsAreInvalid toy_keccak toy_DOMAIN_STRING toy_constantDispatch
      sampleInstance [sampleOperation; sampleOperationOtherSigner] None sampleStore
    = toy_constantDispatch (getOperationsAreInvalidQuery inputQuery) None sampleStore /\
    map operationSigner inputQuery = [sampleAddressMixed; zeroAddress] /\
    length inputQuery = 2%nat.
Proof.
  destruct (getOperationsAreInvalid_query toy_keccak toy_keccak_length toy_DOMAIN_STRING
              toy_constantDispatch sampleInstance
              [sampleOperation; sampleOperationOtherSigner] None sampleStore eq_refl
              ltac:(repeat constructor; discriminate))
    as (q & Hq & Hf).
  exists q. split; [exact Hq|].
  split.
  - inversion Hf as [|? e1 ? q1 [_ H1] Hf1]; subst.
    inversion Hf1 as [|? e2 ? q2 [_ H2] Hf2]; subst.
    inversion Hf2; subst. cbn [map]. rewrite H1, H2. reflexivity.
  - apply Forall2_length in Hf. symmetry. exact Hf.
Defined.

Lemma verification_blind_to_signer_case_witness :
  signer sampleOperation <> signer sampleOperationLowerSigner /\
  operationHasValidSignature toy_keccak toy_DOMAIN_STRING toy_recoveryFor sampleInstance
    {| operation := sampleOperation; typedSignature := sampleTypedSignature |}
  = operationHasValidSignature toy_keccak toy_DOMAIN_STRING toy_recoveryFor sampleInstance
      {| operation := sampleOperationLowerSigner; typedSignature := sampleTypedSignature |}.
Proof.
  split; [discriminate|].
  exact (proj1 (verification_blind_to_signer_case toy_keccak toy_DOMAIN_STRING
                  toy_recoveryFor sampleInstance sampleOperation
                  sampleOperationLowerSigner sampleTypedSignature
                  eq_refl eq_refl eq_refl eq_refl eq_refl)).
Defined.

Lemma digest_signing_requests_witness :
  wf_instance sampleInstance = true /\ wf_Operation sampleOperation = true /\
  actions sampleOperation <> [] /\
  exists h c : string,
    getOperationHash toy_keccak toy_DOMAIN_STRING sampleInstance sampleOperation = Ok h /\
    ethSignOperation toy_keccak toy_DOMAIN_STRING toy_eth_sign toy_createTypedSignature 1
      sampleInstance sampleOperation
    = (signature ← toy_eth_sign h sampleAddressMixed;
       toy_createTypedSignature signature 1,
       [EthSign h sampleAddressMixed]) /\
    ethSignCancelOperation toy_keccak toy_DOMAIN_STRING toy_eth_sign
      toy_createTypedSignature 1 sampleInstance sampleOperation
    = (signature ← toy_eth_sign c sampleAddressMixed;
       toy_createTypedSignature signature 1,
       [EthSign c sampleAddressMixed]).
Proof.
  split; [reflexivity|]. split; [reflexivity|]. split; [discriminate|].
  destruct (digest_signing_requests toy_keccak toy_keccak_length toy_DOMAIN_STRING
              toy_eth_sign toy_createTypedSignature 1 sampleInstance sampleOperation
              eq_refl eq_refl ltac:(discriminate))
    as (h & c & Hh & _ & H1 & H2 & _).
  exists h, c. split; [exact Hh|]. split; [exact H1 | exact H2].
Defined.

Lemma domainPreimage_sensitive_witness :
  wf_instance sampleInstance = true /\ wf_instance sampleInstanceOtherNetwork = true /\
  domainPreimage toy_keccak toy_DOMAIN_STRING sampleInstance
  <> domainPreimage toy_keccak toy_DOMAIN_STRING sampleInstanceOtherNetwork.
Proof.
  split; [reflexivity|]. split; [reflexivity|].
  intros E.
  apply (proj2 (domainPreimage_sensitive toy_keccak toy_keccak_length toy_DOMAIN_STRING)
           sampleInstance sampleInstanceOtherNetwork eq_refl eq_refl) in E as [En _].
  discriminate En.
Defined.

Lemma actionPreimage_sensitive_witness :
  wf_Action sampleAction = true /\ wf_Action sampleActionTwo = true /\
  actionPreimage toy_keccak sampleInstance sampleAction
  <> actionPreimage toy_keccak sampleInstance sampleActionTwo.
Proof.
  split; [reflexivity|]. split; [reflexivity|].
  intros E.
  apply (proj2 (actionPreimage_sensitive toy_keccak toy_keccak_length sampleInstance)
           sampleAction sampleActionTwo eq_refl eq_refl) in E as [Et _].
  discriminate Et.
Defined.
